(** * README issue-section pipeline of [update-readme-with-issues.js]

    A shallow embedding of the four stages of the script
    (fetchAllIssues, categorizeIssues, generateIssuesSection with
    formatIssueForReadme, updateReadme) and the properties claimed of
    them.

    JavaScript strings are sequences of UTF-16 code units; they are
    modelled as [list N].  Literals are written as in the source and
    converted by [js], which decodes the UTF-8 bytes of the Rocq literal
    and re-encodes every code point in UTF-16, so that an emoji of the
    source becomes its surrogate pair. *)

From Stdlib Require Import String Ascii DecimalString.
From stdpp Require Import numbers list.

Local Open Scope N_scope.

Abbreviation jstring := (list N).

(** ** String literals *)

Fixpoint utf8_decode (bs : list N) : list N :=
  match bs with
  | [] => []
  | b0 :: r0 =>
    if b0 <? 0x80 then b0 :: utf8_decode r0
    else match r0 with
    | [] => [0xFFFD]
    | b1 :: r1 =>
      if b0 <? 0xE0
      then (N.land b0 0x1F * 0x40 + N.land b1 0x3F) :: utf8_decode r1
      else match r1 with
      | [] => [0xFFFD]
      | b2 :: r2 =>
        if b0 <? 0xF0
        then (N.land b0 0x0F * 0x1000 + N.land b1 0x3F * 0x40
              + N.land b2 0x3F) :: utf8_decode r2
        else match r2 with
        | [] => [0xFFFD]
        | b3 :: r3 =>
          (N.land b0 0x07 * 0x40000 + N.land b1 0x3F * 0x1000
           + N.land b2 0x3F * 0x40 + N.land b3 0x3F) :: utf8_decode r3
        end
      end
    end
  end.

Definition utf16_encode (cp : N) : jstring :=
  if cp <? 0x10000 then [cp]
  else [0xD800 + N.shiftr (cp - 0x10000) 10;
        0xDC00 + N.land (cp - 0x10000) 0x3FF].

Definition js (s : string) : jstring :=
  concat (map utf16_encode
            (utf8_decode (map N_of_ascii (list_ascii_of_string s)))).

Definition nl : jstring := [10].

(** [String(n)] / template interpolation of a non-negative integer. *)
Definition decimal (n : nat) : jstring :=
  js (NilZero.string_of_uint (Nat.to_uint n)).

Definition decimalN (n : N) : jstring :=
  js (NilZero.string_of_uint (N.to_uint n)).

(** ** String.prototype methods used by the script *)

Fixpoint startsWith (p s : jstring) : bool :=
  match p, s with
  | [], _ => true
  | _ :: _, [] => false
  | a :: p', b :: s' => (a =? b) && startsWith p' s'
  end.

(** [s.includes(p)] *)
Fixpoint includes (s p : jstring) : bool :=
  startsWith p s ||
  match s with
  | [] => false
  | _ :: s' => includes s' p
  end.

(** [a.join(sep)] on an array of strings *)
Fixpoint join (sep : jstring) (a : list jstring) : jstring :=
  match a with
  | [] => []
  | [x] => x
  | x :: rest => x ++ sep ++ join sep rest
  end.

(** WhiteSpace and LineTerminator code units of ECMAScript, the ones
    [trim] strips. *)
Definition isWhiteSpace (c : N) : bool :=
  ((9 <=? c) && (c <=? 13)) || (c =? 0x20) || (c =? 0xA0) || (c =? 0x1680)
  || ((0x2000 <=? c) && (c <=? 0x200A)) || (c =? 0x2028) || (c =? 0x2029)
  || (c =? 0x202F) || (c =? 0x205F) || (c =? 0x3000) || (c =? 0xFEFF).

Fixpoint trimStart (s : jstring) : jstring :=
  match s with
  | [] => []
  | c :: s' => if isWhiteSpace c then trimStart s' else s
  end.

Definition trimEnd (s : jstring) : jstring := rev (trimStart (rev s)).

Definition trim (s : jstring) : jstring := trimEnd (trimStart s).

(** [s.split(sep)[0]] for a one-unit separator: the text before its first
    occurrence, the whole string when it does not occur. *)
Fixpoint split_head (sep : N) (s : jstring) : jstring :=
  match s with
  | [] => []
  | c :: s' => if c =? sep then [] else c :: split_head sep s'
  end.

(** ** Document updater (updateReadme) *)

Definition sectionMarker : jstring := js "## 📋 Current Issues".

Definition placeholderReadme : jstring :=
  js "# Project Title" ++ nl ++ nl ++ js "Welcome to this project!" ++ nl ++ nl.

Fixpoint strip_prefix (p s : jstring) : option jstring :=
  match p, s with
  | [], _ => Some s
  | _ :: _, [] => None
  | a :: p', b :: s' => if a =? b then strip_prefix p' s' else None
  end.

(** The tail [[\s\S]*?(?=##|$)] of the pattern, run on what follows the
    marker: the lazy star consumes code units one at a time until the
    lookahead holds, that is until the remaining text starts with [##]
    or is empty.  The result is the text left after the match. *)
Fixpoint skip_lazy_to_hashes (s : jstring) : jstring :=
  if startsWith (js "##") s then s
  else match s with
       | [] => []
       | _ :: s' => skip_lazy_to_hashes s'
       end.

(** [readmeContent.replace(/## 📋 Current Issues[\s\S]*?(?=##|$)/, '')]:
    the pattern has no [g] flag, so only the leftmost match is replaced;
    the match is tried at every start position from the left. *)
Fixpoint replace_issuesSectionRegex (s : jstring) : jstring :=
  match strip_prefix sectionMarker s with
  | Some rest => skip_lazy_to_hashes rest
  | None =>
    match s with
    | [] => []
    | c :: s' => c :: replace_issuesSectionRegex s'
    end
  end.

(** [readme] is the content of README.md, [None] when reading it fails;
    the result is the text written back. *)
Definition updateReadme (readme : option jstring) (issuesSection : jstring)
  : jstring :=
  let readmeContent :=
    match readme with
    | Some text => text
    | None => placeholderReadme
    end in
  let readmeContent := replace_issuesSectionRegex readmeContent in
  trim readmeContent ++ nl ++ nl ++ issuesSection.

(** ** Data model

    An issue as the tracker delivers it.  Only the properties the script
    reads are kept.  A label is a bare string, an object (whose [name]
    property is kept when it is a string, [None] when it is missing,
    [null] or [undefined]) or any other value without properties of
    interest ([null], [undefined], a number, a boolean).  The tracker's
    schema types [name] as a string, so objects whose [name] is a
    non-string truthy value are not represented. *)

Inductive label :=
| LabelString (s : jstring)
| LabelObject (name : option jstring)
| LabelOther.

Inductive closed_at_value :=
| ClosedAtMissing
| ClosedAtNull
| ClosedAtString (s : jstring).

Record issue := {
  number : N;
  title : jstring;
  state : jstring;
  labels : option (list label);   (* [None]: no labels property *)
  assignee : option jstring;      (* the assignee's login *)
  closed_at : closed_at_value;
  html_url : jstring;
  pull_request : bool             (* truthiness of the property *)
}.

Record categories := {
  open : list issue;
  closed : list issue;
  bugs : list issue;
  enhancements : list issue;
  documentation : list issue;
  help_wanted : list issue;
  good_first_issue : list issue
}.

(** [label?.name] *)
Definition label_name (l : label) : option jstring :=
  match l with
  | LabelObject name => name
  | LabelString _ | LabelOther => None
  end.

(** [v || d] where [v] is a string or undefined: the empty string is
    falsy. *)
Definition or_string (v : option jstring) (d : jstring) : jstring :=
  match v with
  | Some (c :: s) => c :: s
  | Some [] | None => d
  end.

(** [issue.labels || []] *)
Definition labels_or_empty (i : issue) : list label :=
  match labels i with
  | Some ls => ls
  | None => []
  end.

Definition is_open (i : issue) : bool := bool_decide (state i = js "open").

(** ** Categorizer (categorizeIssues)

    [toLowerCase] is String.prototype.toLowerCase, a built-in of the
    runtime with the full Unicode case mapping; the development is
    parametric in it. *)

Section Categorizer.

Variable toLowerCase : jstring -> jstring.

(** The callback of [(issue.labels || []).map(...)]. *)
Definition label_lower (l : label) : jstring :=
  match l with
  | LabelString s => toLowerCase s
  | _ => toLowerCase (or_string (label_name l) [])
  end.

Definition lowered_labels (i : issue) : list jstring :=
  map label_lower (labels_or_empty i).

(** The five [labels.some(...)] tests. *)
Definition some_bug (ls : list jstring) : bool :=
  existsb (fun l => includes l (js "bug") || includes l (js "error")
                    || includes l (js "fix")) ls.

Definition some_enhancement (ls : list jstring) : bool :=
  existsb (fun l => includes l (js "enhancement") || includes l (js "feature")
                    || includes l (js "improvement")) ls.

Definition some_documentation (ls : list jstring) : bool :=
  existsb (fun l => includes l (js "documentation") || includes l (js "docs")) ls.

Definition some_help_wanted (ls : list jstring) : bool :=
  existsb (fun l => includes l (js "help wanted") || includes l (js "help-wanted")) ls.

Definition some_good_first_issue (ls : list jstring) : bool :=
  existsb (fun l => includes l (js "good first issue")
                    || includes l (js "beginner")) ls.

Definition no_categories : categories :=
  {| open := []; closed := []; bugs := []; enhancements := [];
     documentation := []; help_wanted := []; good_first_issue := [] |}.

(** [bucket.push(issue)] guarded by [cond] *)
Definition push_if (cond : bool) (bucket : list issue) (i : issue) : list issue :=
  if cond then bucket ++ [i] else bucket.

(** The body of the [forEach] callback, as a transformer of the
    [categories] object it mutates. *)
Definition categorize_one (c : categories) (i : issue) : categories :=
  if pull_request i then c
  else
    let ls := lowered_labels i in
    {| open := push_if (is_open i) (open c) i;
       closed := push_if (negb (is_open i)) (closed c) i;
       bugs := push_if (some_bug ls) (bugs c) i;
       enhancements := push_if (some_enhancement ls) (enhancements c) i;
       documentation := push_if (some_documentation ls) (documentation c) i;
       help_wanted := push_if (some_help_wanted ls) (help_wanted c) i;
       good_first_issue :=
         push_if (some_good_first_issue ls) (good_first_issue c) i |}.

Definition categorizeIssues (issues : list issue) : categories :=
  fold_left categorize_one issues no_categories.

End Categorizer.

(** The name of a label: a bare string is its own name, an object has
    its [name] property, anything else has the empty name. *)
Definition name_of_label (l : label) : jstring :=
  match l with
  | LabelString s => s
  | LabelObject (Some name) => name
  | LabelObject None | LabelOther => []
  end.

Definition bug_keywords : list jstring := [js "bug"; js "error"; js "fix"].
Definition enhancement_keywords : list jstring :=
  [js "enhancement"; js "feature"; js "improvement"].
Definition documentation_keywords : list jstring :=
  [js "documentation"; js "docs"].
Definition help_wanted_keywords : list jstring :=
  [js "help wanted"; js "help-wanted"].
Definition good_first_issue_keywords : list jstring :=
  [js "good first issue"; js "beginner"].

(** Case-insensitive containment: some label of the issue has a name
    whose lower-cased form contains one of the (lower-case) keywords. *)
Definition label_contains (toLowerCase : jstring -> jstring)
  (keywords : list jstring) (i : issue) : Prop :=
  exists l kw, l ∈ labels_or_empty i /\ kw ∈ keywords
               /\ includes (toLowerCase (name_of_label l)) kw = true.

(** The ASCII fragment of [toLowerCase], used to run the categorizer on
    concrete ASCII labels. *)
Definition ascii_toLowerCase (s : jstring) : jstring :=
  map (fun c => if (65 <=? c) && (c <=? 90) then c + 32 else c) s.

(** ** Issue line (formatIssueForReadme) *)

(** The callback of [labels.map(...)] in the renderer. *)
Definition label_display (l : label) : jstring :=
  match l with
  | LabelString s => s
  | _ => or_string (label_name l) (js "unknown")
  end.

Definition formatIssueForReadme (i : issue) (includeState : bool) : jstring :=
  let state := if is_open i then js "🔓" else js "🔒" in
  let stateText := if includeState then js " " ++ state else [] in
  let labels := labels_or_empty i in
  let labelText :=
    if (0 <? length labels)%nat
    then js " `" ++ join (js "`, `") (map label_display labels) ++ js "`"
    else [] in
  let assignee :=
    match assignee i with
    | Some login => js " - Assigned to @" ++ login
    | None => []
    end in
  js "- [#" ++ decimalN (number i) ++ js "](" ++ html_url i ++ js ")"
  ++ stateText ++ js " **" ++ title i ++ js "**" ++ labelText ++ assignee.

(** ** The clock

    [new Date()] reads the wall clock.  A run of the renderer reads it
    several times; [readings k] is the value (milliseconds since the
    epoch) of the [k]-th read, and a computation threads the number of
    reads made so far. *)

Definition Clocked (A : Type) : Type := (nat -> Z) -> nat -> A * nat.

Definition ret {A} (a : A) : Clocked A := fun _ k => (a, k).

Definition bind {A B} (m : Clocked A) (f : A -> Clocked B) : Clocked B :=
  fun readings k => let (a, k') := m readings k in f a readings k'.

Definition newDate : Clocked Z := fun readings k => (readings k, S k).

Definition run_clock {A} (m : Clocked A) (readings : nat -> Z) : A :=
  fst (m readings 0%nat).

Notation "'let*' x ':=' m 'in' k" := (bind m (fun x => k))
  (at level 10, x name, m at level 100, k at level 200, only parsing).

(** [array.filter(callback)] for a callback that reads the clock. *)
Fixpoint filter_clocked (callback : issue -> Clocked bool) (l : list issue)
  : Clocked (list issue) :=
  match l with
  | [] => ret []
  | i :: rest =>
    let* keep := callback i in
    let* kept := filter_clocked callback rest in
    ret (if keep then i :: kept else kept)
  end.

Definition msPerDay : Z := 86400000.

(** The day number and the time within the day of a time value, and the
    clipping of a time value to the range of dates (outside it the date
    is invalid, [None]). *)
Definition Day (t : Z) : Z := (t / msPerDay)%Z.

Definition TimeWithinDay (t : Z) : Z := (t mod msPerDay)%Z.

Definition TimeClip (t : Z) : option Z :=
  if (Z.abs t <=? 8640000000000000)%Z then Some t else None.

(** ** Section renderer (generateIssuesSection)

    [toISOString] and the date parser behind [new Date(string)] are
    built-ins of the runtime; the parser yields [None] for an Invalid
    Date.  [LocalTZA t isUTC] is the local time zone adjustment of the
    runtime, in milliseconds: the offset of local time from UTC at the
    UTC time [t] when [isUTC] holds, at the local time [t] otherwise. *)

Section Renderer.

Variable toISOString : Z -> jstring.
Variable Date_parse : jstring -> option Z.
Variable LocalTZA : Z -> bool -> Z.

Definition LocalTime (t : Z) : Z := (t + LocalTZA t true)%Z.

Definition UTC (t : Z) : Z := (t - LocalTZA t false)%Z.

(** [d.setDate(d.getDate() - 30)] on the time value [t] of [d]: the
    date is taken in local time; the day made of the local year, the
    local month and the local day of the month less thirty is the local
    day number less thirty; the local time within the day is kept, and
    the result is turned back to UTC and clipped. *)
Definition setDate_minus_30 (t : Z) : option Z :=
  let local := LocalTime t in
  let newDate := ((Day local - 30) * msPerDay + TimeWithinDay local)%Z in
  TimeClip (UTC newDate).

(** [new Date(issue.closed_at)] *)
Definition closedDate (i : issue) : option Z :=
  match closed_at i with
  | ClosedAtMissing => None
  | ClosedAtNull => Some 0%Z
  | ClosedAtString s => Date_parse s
  end.

(** [closedDate > thirtyDaysAgo]; a comparison with an invalid date is
    false. *)
Definition closed_after (i : issue) (thirtyDaysAgo : option Z) : bool :=
  match closedDate i, thirtyDaysAgo with
  | Some t, Some cutoff => (cutoff <? t)%Z
  | _, _ => false
  end.

Definition recently_closed_callback (i : issue) : Clocked bool :=
  let* now := newDate in
  let thirtyDaysAgo := setDate_minus_30 now in
  ret (closed_after i thirtyDaysAgo).

(** [list.forEach(issue => { section += formatIssueForReadme(issue, st) + '\n' })] *)
Definition forEach_line (includeState : bool) (l : list issue)
  (section : jstring) : jstring :=
  fold_left
    (fun section i => section ++ (formatIssueForReadme i includeState ++ nl))
    l section.

Definition issues_search_url (owner repo : jstring) : jstring :=
  js "https://github.com/" ++ owner ++ js "/" ++ repo
  ++ js "/issues?q=is%3Aissue+is%3Aopen".

Definition generateIssuesSection (c : categories) (owner repo : jstring)
  : Clocked jstring :=
  let* now := newDate in
  let timestamp := split_head 84 (toISOString now) in
  let openCount := length (open c) in
  let closedCount := length (closed c) in
  let totalCount := (openCount + closedCount)%nat in
  let section :=
    js "## 📋 Current Issues" ++ nl ++ nl
    ++ js "> **Repository:** [" ++ owner ++ js "/" ++ repo
    ++ js "](https://github.com/" ++ owner ++ js "/" ++ repo ++ js ")  " ++ nl
    ++ js "> **Last Updated:** " ++ timestamp ++ js "  " ++ nl
    ++ js "> **Total Issues:** " ++ decimal totalCount ++ js " ("
    ++ decimal openCount ++ js " open, " ++ decimal closedCount
    ++ js " closed)" ++ nl ++ nl in
  let section :=
    if (0 <? length (open c))%nat then
      let section :=
        section ++ (js "### 🔓 Open Issues (" ++ decimal (length (open c))
                    ++ js ")" ++ nl ++ nl) in
      let section := forEach_line false (take 20 (open c)) section in
      let section :=
        if (20 <? length (open c))%nat then
          section ++ (nl ++ js "... and " ++ decimal (length (open c) - 20)
                      ++ js " more open issues. [View all open issues]("
                      ++ issues_search_url owner repo ++ js ")" ++ nl)
        else section in
      section ++ nl
    else section in
  let section :=
    if (0 <? length (bugs c))%nat then
      let section :=
        section ++ (js "### 🐛 Bug Reports (" ++ decimal (length (bugs c))
                    ++ js ")" ++ nl ++ nl) in
      let section := forEach_line true (take 10 (bugs c)) section in
      section ++ nl
    else section in
  let section :=
    if (0 <? length (enhancements c))%nat then
      let section :=
        section ++ (js "### ✨ Feature Requests & Enhancements ("
                    ++ decimal (length (enhancements c)) ++ js ")" ++ nl ++ nl) in
      let section := forEach_line true (take 10 (enhancements c)) section in
      section ++ nl
    else section in
  let section :=
    if (0 <? length (help_wanted c))%nat then
      let section :=
        section ++ (js "### 🆘 Help Wanted (" ++ decimal (length (help_wanted c))
                    ++ js ")" ++ nl ++ nl) in
      let section := forEach_line true (take 5 (help_wanted c)) section in
      section ++ nl
    else section in
  let section :=
    if (0 <? length (good_first_issue c))%nat then
      let section :=
        section ++ (js "### 🌟 Good First Issues ("
                    ++ decimal (length (good_first_issue c)) ++ js ")"
                    ++ nl ++ nl) in
      let section := forEach_line true (good_first_issue c) section in
      section ++ nl
    else section in
  let* filtered := filter_clocked recently_closed_callback (closed c) in
  let recentlyClosed := take 10 filtered in
  let section :=
    if (0 <? length recentlyClosed)%nat then
      let section :=
        section ++ (js "### ✅ Recently Closed Issues ("
                    ++ decimal (length recentlyClosed) ++ js ")" ++ nl ++ nl) in
      let section := forEach_line true recentlyClosed section in
      section ++ nl
    else section in
  let* stamp := newDate in
  let section :=
    section
    ++ (js "### 📊 Issue Statistics" ++ nl ++ nl
        ++ js "| Category | Count |" ++ nl
        ++ js "|----------|-------|" ++ nl
        ++ js "| Total Issues | " ++ decimal totalCount ++ js " |" ++ nl
        ++ js "| Open Issues | " ++ decimal openCount ++ js " |" ++ nl
        ++ js "| Closed Issues | " ++ decimal closedCount ++ js " |" ++ nl
        ++ js "| Bug Reports | " ++ decimal (length (bugs c)) ++ js " |" ++ nl
        ++ js "| Feature Requests | " ++ decimal (length (enhancements c))
        ++ js " |" ++ nl
        ++ js "| Documentation | " ++ decimal (length (documentation c))
        ++ js " |" ++ nl
        ++ js "| Help Wanted | " ++ decimal (length (help_wanted c))
        ++ js " |" ++ nl
        ++ js "| Good First Issues | " ++ decimal (length (good_first_issue c))
        ++ js " |" ++ nl ++ nl
        ++ js "---" ++ nl ++ nl
        ++ js "*This section is automatically updated by GitHub Actions using the [GitHub MCP Server](https://github.com/github/github-mcp-server). Last update: "
        ++ toISOString stamp ++ js "*" ++ nl ++ nl) in
  ret section.

End Renderer.

(** ** Issue fetcher (fetchAllIssues)

    The arguments of a [list_issues] call and what comes back: the call
    throws (transport error, or a text that is not JSON), the first
    content item has no text, or the text parses to an array of issues. *)

Record list_issues_args := {
  arg_owner : jstring;
  arg_repo : jstring;
  arg_state : jstring;
  arg_sort : jstring;
  arg_direction : jstring;
  arg_page : nat;
  arg_perPage : nat
}.

Inductive tool_result :=
| CallThrows
| NoText
| IssuesText (issues : list issue).

Inductive outcome (A : Type) :=
| Returned (a : A)
| Thrown
| OutOfFuel.
Arguments Returned {A} a.
Arguments Thrown {A}.
Arguments OutOfFuel {A}.

Definition perPage : nat := 100.

Section Fetcher.

Variable callTool : list_issues_args -> tool_result.
Variables owner repo : jstring.

Definition request (page : nat) : list_issues_args :=
  {| arg_owner := owner; arg_repo := repo; arg_state := js "all";
     arg_sort := js "updated"; arg_direction := js "desc";
     arg_page := page; arg_perPage := perPage |}.

(** The [while (true)] loop; each iteration costs one unit of fuel.  The
    calls made are logged next to the outcome. *)
Fixpoint fetch_loop (fuel : nat) (allIssues : list issue) (page : nat)
  (calls : list list_issues_args)
  : list list_issues_args * outcome (list issue) :=
  match fuel with
  | O => (calls, OutOfFuel)
  | S fuel' =>
    let calls := calls ++ [request page] in
    match callTool (request page) with
    | CallThrows => (calls, Thrown)
    | NoText => (calls, Returned allIssues)
    | IssuesText issues =>
      if (length issues =? 0)%nat then (calls, Returned allIssues)
      else
        let allIssues := allIssues ++ issues in
        if (length issues <? perPage)%nat then (calls, Returned allIssues)
        else fetch_loop fuel' allIssues (page + 1)%nat calls
    end
  end.

Definition fetchAllIssues (fuel : nat)
  : list list_issues_args * outcome (list issue) :=
  fetch_loop fuel [] 1%nat [].

End Fetcher.

(** ** The layout of the rendered section, block by block

    The text the renderer is expected to produce, written as the
    concatenation of its blocks; [generateIssuesSection] is compared with
    it below. *)

(** One line per issue, each ended by a line feed. *)
Definition issue_lines (includeState : bool) (l : list issue) : jstring :=
  concat (map (fun i => formatIssueForReadme i includeState ++ nl) l).

Definition header_before_date (owner repo : jstring) : jstring :=
  js "## 📋 Current Issues" ++ nl ++ nl
  ++ js "> **Repository:** [" ++ owner ++ js "/" ++ repo
  ++ js "](https://github.com/" ++ owner ++ js "/" ++ repo ++ js ")  " ++ nl
  ++ js "> **Last Updated:** ".

Definition header_after_date (c : categories) : jstring :=
  js "  " ++ nl
  ++ js "> **Total Issues:** " ++ decimal (length (open c) + length (closed c))
  ++ js " (" ++ decimal (length (open c)) ++ js " open, "
  ++ decimal (length (closed c)) ++ js " closed)" ++ nl ++ nl.

Definition header_block (date : jstring) (c : categories)
  (owner repo : jstring) : jstring :=
  header_before_date owner repo ++ date ++ header_after_date c.

Definition more_open_line (n : nat) (owner repo : jstring) : jstring :=
  js "... and " ++ decimal (n - 20)
  ++ js " more open issues. [View all open issues]("
  ++ issues_search_url owner repo ++ js ")".

(** The open-issues subsection: nothing for an empty bucket; otherwise
    the heading, the first [min 20 n] entries without state icon, and,
    past twenty entries, one pointer line set off by an empty line. *)
Definition open_block (owner repo : jstring) (opens : list issue) : jstring :=
  let n := length opens in
  match n with
  | O => []
  | S _ =>
    js "### 🔓 Open Issues (" ++ decimal n ++ js ")" ++ nl ++ nl
    ++ issue_lines false (take (Nat.min 20 n) opens)
    ++ (if (20 <? n)%nat then nl ++ more_open_line n owner repo ++ nl else [])
    ++ nl
  end.

(** A subsection whose lines carry the state icon: [total] is the count
    shown in the heading, [shown] the entries listed. *)
Definition icon_block (heading : jstring) (total : nat) (shown : list issue)
  : jstring :=
  match total with
  | O => []
  | S _ =>
    heading ++ decimal total ++ js ")" ++ nl ++ nl
    ++ issue_lines true shown ++ nl
  end.

Definition bugs_block (c : categories) : jstring :=
  icon_block (js "### 🐛 Bug Reports (") (length (bugs c)) (take 10 (bugs c)).

Definition enhancements_block (c : categories) : jstring :=
  icon_block (js "### ✨ Feature Requests & Enhancements (")
    (length (enhancements c)) (take 10 (enhancements c)).

Definition help_wanted_block (c : categories) : jstring :=
  icon_block (js "### 🆘 Help Wanted (") (length (help_wanted c))
    (take 5 (help_wanted c)).

Definition good_first_issue_block (c : categories) : jstring :=
  icon_block (js "### 🌟 Good First Issues (") (length (good_first_issue c))
    (good_first_issue c).

Definition recently_closed_block (recent : list issue) : jstring :=
  icon_block (js "### ✅ Recently Closed Issues (") (length recent) recent.

Definition statistics_before_stamp (c : categories) : jstring :=
  js "### 📊 Issue Statistics" ++ nl ++ nl
  ++ js "| Category | Count |" ++ nl
  ++ js "|----------|-------|" ++ nl
  ++ js "| Total Issues | " ++ decimal (length (open c) + length (closed c))
  ++ js " |" ++ nl
  ++ js "| Open Issues | " ++ decimal (length (open c)) ++ js " |" ++ nl
  ++ js "| Closed Issues | " ++ decimal (length (closed c)) ++ js " |" ++ nl
  ++ js "| Bug Reports | " ++ decimal (length (bugs c)) ++ js " |" ++ nl
  ++ js "| Feature Requests | " ++ decimal (length (enhancements c))
  ++ js " |" ++ nl
  ++ js "| Documentation | " ++ decimal (length (documentation c))
  ++ js " |" ++ nl
  ++ js "| Help Wanted | " ++ decimal (length (help_wanted c))
  ++ js " |" ++ nl
  ++ js "| Good First Issues | " ++ decimal (length (good_first_issue c))
  ++ js " |" ++ nl ++ nl
  ++ js "---" ++ nl ++ nl
  ++ js "*This section is automatically updated by GitHub Actions using the [GitHub MCP Server](https://github.com/github/github-mcp-server). Last update: ".

Definition statistics_after_stamp : jstring := js "*" ++ nl ++ nl.

Definition statistics_block (c : categories) (stamp : jstring) : jstring :=
  statistics_before_stamp c ++ stamp ++ statistics_after_stamp.

(** The closed issues kept by the filter when the [k]-th and following
    clock reads serve its callback, one read per issue. *)
Fixpoint kept_recent (Date_parse : jstring -> option Z)
  (LocalTZA : Z -> bool -> Z) (readings : nat -> Z) (k : nat)
  (l : list issue) : list issue :=
  match l with
  | [] => []
  | i :: rest =>
    if closed_after Date_parse i (setDate_minus_30 LocalTZA (readings k))
    then i :: kept_recent Date_parse LocalTZA readings (S k) rest
    else kept_recent Date_parse LocalTZA readings (S k) rest
  end.

(** An issue closed later than the cutoff that [setDate] computes from
    [now], where the time of closing is the one
    [new Date(issue.closed_at)] denotes. *)
Definition closed_after_cutoff (Date_parse : jstring -> option Z)
  (LocalTZA : Z -> bool -> Z) (now : Z) (i : issue) : Prop :=
  exists t cutoff,
    closedDate Date_parse i = Some t
    /\ setDate_minus_30 LocalTZA now = Some cutoff /\ (cutoff < t)%Z.

#[global] Instance closed_after_cutoff_dec Date_parse LocalTZA now i :
  Decision (closed_after_cutoff Date_parse LocalTZA now i).
Proof.
  unfold closed_after_cutoff.
  destruct (closedDate Date_parse i) as [t|];
    [|right; by intros (t & cutoff & [=] & _)].
  destruct (setDate_minus_30 LocalTZA now) as [cutoff|];
    [|right; by intros (t' & cutoff & _ & [=] & _)].
  destruct (decide (cutoff < t)%Z) as [Hlt|Hge].
  - left. by exists t, cutoff.
  - right. intros (t' & cutoff' & [= <-] & [= <-] & Hlt). done.
Defined.

(** In the words of the specification: closed within the thirty days,
    of 24 hours each, that end at [now]. *)
Definition closed_in_last_30_days (Date_parse : jstring -> option Z)
  (now : Z) (i : issue) : Prop :=
  exists t, closedDate Date_parse i = Some t
            /\ (now - 30 * msPerDay < t <= now)%Z.

#[global] Instance closed_in_last_30_days_dec Date_parse now i :
  Decision (closed_in_last_30_days Date_parse now i).
Proof.
  unfold closed_in_last_30_days.
  destruct (closedDate Date_parse i) as [t|];
    [|right; by intros (t & [=] & _)].
  destruct (decide (now - 30 * msPerDay < t <= now)%Z) as [Hin|Hout].
  - left. by exists t.
  - right. intros (t' & [= <-] & Hin). done.
Defined.

Definition frozen (readings : nat -> Z) (now : Z) : Prop :=
  forall k, readings k = now.

(** [s.indexOf(p)]: the position of the first occurrence. *)
Fixpoint indexOf (s p : jstring) : option nat :=
  if startsWith p s then Some 0%nat
  else match s with
       | [] => None
       | _ :: s' => S <$> indexOf s' p
       end.

(** The blocks around the open-issues and the recently-closed
    subsections. *)
Definition blocks_after_open (toISOString : Z -> jstring)
  (Date_parse : jstring -> option Z) (LocalTZA : Z -> bool -> Z)
  (c : categories) (readings : nat -> Z) : jstring :=
  bugs_block c ++ enhancements_block c ++ help_wanted_block c
  ++ good_first_issue_block c
  ++ recently_closed_block
       (take 10 (kept_recent Date_parse LocalTZA readings 1 (closed c)))
  ++ statistics_block c (toISOString (readings (S (length (closed c))))).

Definition blocks_before_recent (date : jstring) (c : categories)
  (owner repo : jstring) : jstring :=
  header_block date c owner repo ++ open_block owner repo (open c)
  ++ bugs_block c ++ enhancements_block c ++ help_wanted_block c
  ++ good_first_issue_block c.

Definition state_icon (i : issue) : jstring :=
  if is_open i then js "🔓" else js "🔒".

(** A label entry that is neither a string nor an object with a
    non-empty name. *)
Definition malformed_label (l : label) : bool :=
  match l with
  | LabelString _ => false
  | LabelObject (Some (_ :: _)) => false
  | LabelObject (Some []) | LabelObject None | LabelOther => true
  end.

Definition with_labels (i : issue) (ls : list label) : issue :=
  {| number := number i; title := title i; state := state i;
     labels := Some ls; assignee := assignee i; closed_at := closed_at i;
     html_url := html_url i; pull_request := pull_request i |}.

(** ** A concrete runtime for examples

    [toISOString] in UTC for the proleptic Gregorian calendar, and a
    parser for the timestamps the tracker sends
    ([YYYY-MM-DDTHH:MM:SSZ]). *)

Fixpoint pad_digits (width : nat) (n : Z) : jstring :=
  match width with
  | O => []
  | S w => pad_digits w (n / 10)%Z ++ [48 + Z.to_N (n mod 10)%Z]
  end.

Definition civil_from_days (days : Z) : Z * Z * Z :=
  (let z := days + 719468 in
   let era := z / 146097 in
   let doe := z - era * 146097 in
   let yoe := (doe - doe / 1460 + doe / 36524 - doe / 146096) / 365 in
   let doy := doe - (365 * yoe + yoe / 4 - yoe / 100) in
   let mp := (5 * doy + 2) / 153 in
   let d := doy - (153 * mp + 2) / 5 + 1 in
   let m := if mp <? 10 then mp + 3 else mp - 9 in
   let y := yoe + era * 400 + (if m <=? 2 then 1 else 0) in
   (y, m, d))%Z.

Definition days_from_civil (y m d : Z) : Z :=
  (let y := if m <=? 2 then y - 1 else y in
   let era := y / 400 in
   let yoe := y - era * 400 in
   let doy := (153 * (if 2 <? m then m - 3 else m + 9) + 2) / 5 + d - 1 in
   let doe := yoe * 365 + yoe / 4 - yoe / 100 + doy in
   era * 146097 + doe - 719468)%Z.

Definition utc_toISOString (t : Z) : jstring :=
  let '(y, m, d) := civil_from_days (t / msPerDay)%Z in
  let ms := (t mod msPerDay)%Z in
  let year :=
    if ((0 <=? y) && (y <=? 9999))%Z then pad_digits 4 y
    else (if (y <? 0)%Z then js "-" else js "+") ++ pad_digits 6 (Z.abs y) in
  year ++ js "-" ++ pad_digits 2 m ++ js "-" ++ pad_digits 2 d ++ js "T"
  ++ pad_digits 2 (ms / 3600000)%Z ++ js ":"
  ++ pad_digits 2 (ms / 60000 mod 60)%Z ++ js ":"
  ++ pad_digits 2 (ms / 1000 mod 60)%Z ++ js "."
  ++ pad_digits 3 (ms mod 1000)%Z ++ js "Z".

Definition digits_value (ds : jstring) : option Z :=
  foldl (fun acc c =>
           match acc with
           | Some v => if (48 <=? c) && (c <=? 57)
                       then Some (10 * v + (Z.of_N c - 48))%Z else None
           | None => None
           end) (Some 0%Z) ds.

Definition field (s : jstring) (from len : nat) : option Z :=
  digits_value (take len (drop from s)).

Definition parse_timestamp (s : jstring) : option Z :=
  if bool_decide (length s = 20%nat
                  /\ s !! 4%nat = Some 45 /\ s !! 7%nat = Some 45
                  /\ s !! 10%nat = Some 84 /\ s !! 13%nat = Some 58
                  /\ s !! 16%nat = Some 58 /\ s !! 19%nat = Some 90)
  then
    y ← field s 0 4; m ← field s 5 2; d ← field s 8 2;
    h ← field s 11 2; mi ← field s 14 2; sec ← field s 17 2;
    if bool_decide (1 <= m <= 12 /\ 1 <= d <= 31 /\ h < 24 /\ mi < 60
                    /\ sec < 60)%Z
    then Some (days_from_civil y m d * msPerDay + h * 3600000 + mi * 60000
               + sec * 1000)%Z
    else None
  else None.

(** A zone without offset: UTC. *)
Definition utc_zone (t : Z) (isUTC : bool) : Z := 0%Z.

(** New York around the start of summer time in 2025 (9 March, 02:00
    local time, 07:00 UTC): five hours behind UTC before, four hours
    after; a local time in the hour that is skipped is read with the
    offset before the change. *)
Definition new_york_zone (t : Z) (isUTC : bool) : Z :=
  (if isUTC
   then (if t <? 1741503600000 then -5 * 3600000 else -4 * 3600000)
   else (if t <? 1741489200000 then -5 * 3600000 else -4 * 3600000))%Z.

(** ** Sample data *)

Definition crash_issue (url : jstring) : issue :=
  {| number := 42; title := js "Crash on startup"; state := js "open";
     labels := Some [LabelString (js "bug")]; assignee := None;
     closed_at := ClosedAtNull; html_url := url; pull_request := false |}.

Definition issue42 : issue :=
  crash_issue (js "https://github.com/acme/widgets/issues/42").

Definition issue7 : issue :=
  {| number := 7; title := js "Typo in docs"; state := js "closed";
     labels := Some [LabelObject (Some (js "Documentation"))];
     assignee := Some (js "octocat");
     closed_at := ClosedAtString (js "2025-05-20T10:00:00Z");
     html_url := js "https://github.com/acme/widgets/issues/7";
     pull_request := false |}.

Definition pull9 : issue :=
  {| number := 9; title := js "Fix crash"; state := js "open";
     labels := Some [LabelString (js "bug")]; assignee := None;
     closed_at := ClosedAtNull;
     html_url := js "https://github.com/acme/widgets/pull/9";
     pull_request := true |}.

Definition issue8 : issue :=
  {| number := 8; title := js "Flaky test"; state := js "closed";
     labels := None; assignee := None;
     closed_at := ClosedAtString (js "2025-07-01T00:00:00Z");
     html_url := js "https://github.com/acme/widgets/issues/8";
     pull_request := false |}.

Definition issue11 : issue :=
  {| number := 11; title := js "Stale cache"; state := js "closed";
     labels := None; assignee := None;
     closed_at := ClosedAtString (js "2025-02-23T12:30:00Z");
     html_url := js "https://github.com/acme/widgets/issues/11";
     pull_request := false |}.

Definition sample_categories : categories :=
  categorizeIssues ascii_toLowerCase [issue42; issue7; pull9].

(** 2025-06-01T12:00:00.000Z and 2025-08-01T12:00:00.000Z *)
Definition june_1 : Z := 1748779200000.

Definition august_1 : Z := 1754049600000.

(** 2025-03-25T12:00:00.000Z *)
Definition march_25_noon : Z := 1742904000000.

(** The buckets of the closed issue 8, whose closing time is
    2025-07-01T00:00:00Z. *)
Definition future_categories : categories :=
  categorizeIssues ascii_toLowerCase [issue8].

Definition sample_render (now : Z) : jstring :=
  run_clock (generateIssuesSection utc_toISOString parse_timestamp utc_zone
               sample_categories (js "acme") (js "widgets"))
            (fun _ => now).

(** An issue source with one full page followed by a short one. *)
Definition two_pages (p : nat) : list issue :=
  if (p =? 1)%nat then replicate 100 issue42 else [issue7].

Definition two_page_tool (a : list_issues_args) : tool_result :=
  IssuesText (two_pages (arg_page a)).

(** The number of positions at which [p] occurs in [s]. *)
Fixpoint count_occurrences (s p : jstring) : nat :=
  ((if startsWith p s then 1 else 0)
   + match s with
     | [] => 0
     | _ :: s' => count_occurrences s' p
     end)%nat.

(** The section rendered on 1 June 2025 for [n] copies of issue 42. *)
Definition render_copies (n : nat) : jstring :=
  run_clock (generateIssuesSection utc_toISOString parse_timestamp utc_zone
               (categorizeIssues ascii_toLowerCase (replicate n issue42))
               (js "acme") (js "widgets"))
            (fun _ => june_1).

(** ** The pipeline (main)

    The environment variables the script reads; [None] is an unset
    variable. *)

Record environment := {
  GITHUB_TOKEN : option jstring;
  REPO_OWNER : option jstring;
  REPO_NAME : option jstring;
  GITHUB_REPOSITORY : option jstring
}.

(** [s.split(sep)] for a one-unit separator. *)
Fixpoint split (sep : N) (s : jstring) : list jstring :=
  match s with
  | [] => [[]]
  | c :: s' =>
    if c =? sep then [] :: split sep s'
    else match split sep s' with
         | piece :: pieces => (c :: piece) :: pieces
         | [] => [[c]]
         end
  end.

(** [a || b] on values that are strings or undefined. *)
Definition or_undefined (a b : option jstring) : option jstring :=
  match a with
  | Some (_ :: _) => a
  | Some [] | None => b
  end.

(** [!v] *)
Definition falsy (v : option jstring) : bool :=
  match v with
  | Some (_ :: _) => false
  | Some [] | None => true
  end.

(** [process.env.GITHUB_REPOSITORY?.split('/')[k]] *)
Definition repository_part (env : environment) (k : nat) : option jstring :=
  match GITHUB_REPOSITORY env with
  | Some s => split 47 s !! k
  | None => None
  end.

Definition repoOwner (env : environment) : option jstring :=
  or_undefined (REPO_OWNER env) (repository_part env 0).

Definition repoName (env : environment) : option jstring :=
  or_undefined (REPO_NAME env) (repository_part env 1).

(** What a run does to the world around it, in order: the call of
    [mcpClient.initialize()], a [list_issues] call, the call of
    [mcpClient.disconnect()]. *)
Inductive event :=
| Connect
| ToolCall (args : list_issues_args)
| Disconnect.

(** How a run ends: the exit code, the events, and the text written to
    README.md ([None] when the file is not written). *)
Record main_result := {
  exit_code : nat;
  events : list event;
  written : option jstring
}.

Section Pipeline.

Variable toLowerCase : jstring -> jstring.
Variable toISOString : Z -> jstring.
Variable Date_parse : jstring -> option Z.
Variable LocalTZA : Z -> bool -> Z.
Variable callTool : list_issues_args -> tool_result.
(** [mcpClient.initialize()] and [fs.writeFile] succeed or throw. *)
Variable connects : bool.
Variable write_succeeds : bool.

(** The [catch] block: [process.exit(1)] ends the process at once, so
    the [finally] block with its [disconnect] is not reached. *)
Definition exit_1 (evs : list event) : main_result :=
  {| exit_code := 1; events := evs; written := None |}.

(** A run of [main] to its end, in which no interrupt or termination
    signal reaches the process and [disconnect] returns; [None] when the
    fuel does not suffice for the fetch loop. *)
Definition main (env : environment) (readme : option jstring)
  (readings : nat -> Z) (fuel : nat) : option main_result :=
  if falsy (GITHUB_TOKEN env) then Some (exit_1 [])
  else if falsy (repoOwner env) || falsy (repoName env) then Some (exit_1 [])
  else
    match repoOwner env, repoName env with
    | Some owner, Some repo =>
      if negb connects then Some (exit_1 [Connect])
      else
        match fetchAllIssues callTool owner repo fuel with
        | (_, OutOfFuel) => None
        | (calls, Thrown) => Some (exit_1 (Connect :: map ToolCall calls))
        | (calls, Returned issues) =>
          if (length issues =? 0)%nat then
            Some {| exit_code := 0;
                    events := Connect :: map ToolCall calls ++ [Disconnect];
                    written := None |}
          else
            let categories := categorizeIssues toLowerCase issues in
            let issuesSection :=
              run_clock (generateIssuesSection toISOString Date_parse
                           LocalTZA categories owner repo) readings in
            if write_succeeds then
              Some {| exit_code := 0;
                      events := Connect :: map ToolCall calls ++ [Disconnect];
                      written := Some (updateReadme readme issuesSection) |}
            else Some (exit_1 (Connect :: map ToolCall calls))
        end
    | _, _ => Some (exit_1 [])
    end.

End Pipeline.

(** ** Changed files of the review scripts

    [stdout.trim().split('\n').filter(f => f)] on the output of
    [git diff --name-only]. *)
Definition changedFiles (stdout : jstring) : list jstring :=
  List.filter (fun f => negb (bool_decide (f = []))) (split 10 (trim stdout)).

(** A code unit that does not occur in a string. *)
Definition free_of (c : N) (s : jstring) : Prop := Forall (fun u => u <> c) s.

#[global] Instance free_of_dec c s : Decision (free_of c s).
Proof. unfold free_of. apply _. Defined.

(** The blocks of a rendered section that follow its header. *)
Definition blocks_after_header (toISOString : Z -> jstring)
  (Date_parse : jstring -> option Z) (LocalTZA : Z -> bool -> Z)
  (c : categories) (owner repo : jstring) (readings : nat -> Z) : jstring :=
  open_block owner repo (open c)
  ++ blocks_after_open toISOString Date_parse LocalTZA c readings.

Definition sample_environment : environment :=
  {| GITHUB_TOKEN := Some (js "ghp_token"); REPO_OWNER := None;
     REPO_NAME := None; GITHUB_REPOSITORY := Some (js "acme/widgets") |}.

(** The header of a rendered section after its first line. *)
Definition header_after_marker (date : jstring) (c : categories)
  (owner repo : jstring) : jstring :=
  nl ++ nl
  ++ js "> **Repository:** [" ++ owner ++ js "/" ++ repo
  ++ js "](https://github.com/" ++ owner ++ js "/" ++ repo ++ js ")  " ++ nl
  ++ js "> **Last Updated:** " ++ date ++ header_after_date c.

(** A file name as [git diff --name-only] prints it on a line of its
    own: not empty, without line feed, with no white space at either
    end. *)
Definition plain_name (f : jstring) : Prop :=
  f <> [] /\ free_of 10 f
  /\ (forall c rest, f = c :: rest -> isWhiteSpace c = false)
  /\ (forall c rest, f = rest ++ [c] -> isWhiteSpace c = false).

(** ** Complexity metric of the analysis server (calculateComplexity)

    [\w] and [\b] of a regular expression without the [u] flag: a word
    unit is an ASCII letter, a digit or the underscore; a boundary lies
    between a word unit and a unit that is none, the two ends of the
    text counting as none. *)

Definition is_word (c : N) : bool :=
  ((48 <=? c) && (c <=? 57)) || ((65 <=? c) && (c <=? 90)) || (c =? 95)
  || ((97 <=? c) && (c <=? 122)).

Definition word_at (c : option N) : bool :=
  match c with
  | Some u => is_word u
  | None => false
  end.

Definition boundary (before after : option N) : bool :=
  xorb (word_at before) (word_at after).

(** Whether [\bkeyword\b] matches at the start of [s], [before] being
    the unit in front of [s]. *)
Definition keyword_matches (keyword : jstring) (before : option N)
  (s : jstring) : bool :=
  boundary before (head s)
  && match strip_prefix keyword s with
     | Some rest =>
       boundary (match last keyword with Some u => Some u | None => before end)
         (head rest)
     | None => false
     end.

(** [content.match(new RegExp(`\\b${keyword}\\b`, 'g'))]: the number of
    matches found from left to right, the search going on behind each
    match; [skip] counts the units of the last match still to pass. *)
Fixpoint count_matches (keyword : jstring) (skip : nat) (before : option N)
  (s : jstring) : nat :=
  match s with
  | [] => if keyword_matches keyword before [] then 1 else 0
  | c :: s' =>
    match skip with
    | S skip' => count_matches keyword skip' (Some c) s'
    | O =>
      if keyword_matches keyword before s
      then S (count_matches keyword (length keyword - 1) (Some c) s')
      else count_matches keyword 0 (Some c) s'
    end
  end%nat.

Definition complexity_keywords : list jstring :=
  [js "if"; js "else"; js "for"; js "while"; js "switch"; js "case";
   js "try"; js "catch"].

Definition calculateComplexity (content : jstring) : nat :=
  fold_left
    (fun complexity keyword =>
       (complexity + count_matches keyword 0 None content)%nat)
    complexity_keywords 1%nat.

(** A decidable form of [plain_name]. *)
Definition plain_nameb (f : jstring) : bool :=
  negb (bool_decide (f = [])) && bool_decide (free_of 10 f)
  && match head f, last f with
     | Some c, Some d => negb (isWhiteSpace c) && negb (isWhiteSpace d)
     | _, _ => false
     end.

(** ** More sample data *)

Definition full_page : list issue := replicate 100 issue42.

(** One full page, then a response without text. *)
Definition textless_tool (a : list_issues_args) : tool_result :=
  if (arg_page a =? 1)%nat then IssuesText full_page else NoText.

(** One full page, then a call that throws. *)
Definition throwing_tool (a : list_issues_args) : tool_result :=
  if (arg_page a =? 1)%nat then IssuesText full_page else CallThrows.

(** Full pages without end. *)
Definition endless_tool (a : list_issues_args) : tool_result :=
  IssuesText full_page.

Definition empty_tool (a : list_issues_args) : tool_result := IssuesText [].

Definition pulls_tool (a : list_issues_args) : tool_result :=
  IssuesText [pull9].

(** A clock that moves on after the third read. *)
Definition late_clock (k : nat) : Z :=
  if (k <? 3)%nat then june_1 else august_1.

Definition sample_readme : jstring := js "# Title" ++ nl.

Definition sample_main (tool : list_issues_args -> tool_result)
  (env : environment) : option main_result :=
  main ascii_toLowerCase utc_toISOString parse_timestamp utc_zone tool true
    true env (Some sample_readme) (fun _ => june_1) 5.

Definition the_result (run : option main_result) : main_result :=
  match run with
  | Some r => r
  | None => exit_1 []
  end.

Definition tokenless_environment : environment :=
  {| GITHUB_TOKEN := None; REPO_OWNER := Some (js "acme");
     REPO_NAME := Some (js "widgets"); GITHUB_REPOSITORY := None |}.

(** ** Document updater *)

Lemma replace_unfold s :
  replace_issuesSectionRegex s
  = match strip_prefix sectionMarker s with
    | Some rest => skip_lazy_to_hashes rest
    | None => match s with
              | [] => []
              | c :: s' => c :: replace_issuesSectionRegex s'
              end
    end.
Proof. by destruct s. Qed.

Lemma skip_unfold s :
  skip_lazy_to_hashes s
  = if startsWith (js "##") s then s
    else match s with
         | [] => []
         | _ :: s' => skip_lazy_to_hashes s'
         end.
Proof. by destruct s. Qed.

Lemma indexOf_unfold s p :
  indexOf s p
  = if startsWith p s then Some 0%nat
    else match s with
         | [] => None
         | _ :: s' => S <$> indexOf s' p
         end.
Proof. by destruct s. Qed.

Lemma strip_prefix_app p rest : strip_prefix p (p ++ rest) = Some rest.
Proof.
  induction p as [|a p IH]; [by destruct rest|].
  cbn [app strip_prefix]. by rewrite N.eqb_refl.
Qed.

Lemma strip_prefix_None p s : startsWith p s = false -> strip_prefix p s = None.
Proof.
  revert s. induction p as [|a p IH]; intros [|b s]; cbn; try done.
  destruct (a =? b); [apply IH|done].
Qed.

(** What [indexOf] says about the first position. *)
Lemma indexOf_cons_inv c s p :
  indexOf (c :: s) p <> Some 0%nat ->
  startsWith p (c :: s) = false /\ indexOf (c :: s) p = S <$> indexOf s p.
Proof.
  rewrite (indexOf_unfold (c :: s)).
  destruct (startsWith p (c :: s)); [done|]. by split.
Qed.

Lemma replace_without_marker s :
  indexOf s sectionMarker = None -> replace_issuesSectionRegex s = s.
Proof.
  induction s as [|c s IH]; intros Hnone; [done|].
  destruct (indexOf_cons_inv c s sectionMarker) as [Hstart Hidx].
  { by rewrite Hnone. }
  rewrite replace_unfold, (strip_prefix_None _ _ Hstart).
  rewrite Hidx in Hnone. destruct (indexOf s sectionMarker); [done|].
  by rewrite IH.
Qed.

Lemma replace_at_marker pre rest :
  indexOf (pre ++ sectionMarker ++ rest) sectionMarker = Some (length pre) ->
  replace_issuesSectionRegex (pre ++ sectionMarker ++ rest)
  = pre ++ skip_lazy_to_hashes rest.
Proof.
  induction pre as [|c pre IH]; intros Hfirst.
  - cbn [app]. by rewrite replace_unfold, strip_prefix_app.
  - cbn [app length] in *.
    destruct (indexOf_cons_inv c (pre ++ sectionMarker ++ rest) sectionMarker)
      as [Hstart Hidx].
    { by rewrite Hfirst. }
    rewrite replace_unfold, (strip_prefix_None _ _ Hstart).
    rewrite Hidx in Hfirst.
    destruct (indexOf (pre ++ sectionMarker ++ rest) sectionMarker) as [k|];
      [|done].
    injection Hfirst as ->. by rewrite IH.
Qed.

Lemma skip_without_hashes s :
  indexOf s (js "##") = None -> skip_lazy_to_hashes s = [].
Proof.
  induction s as [|c s IH]; intros Hnone; [done|].
  destruct (indexOf_cons_inv c s (js "##")) as [Hstart Hidx].
  { by rewrite Hnone. }
  rewrite skip_unfold, Hstart. rewrite Hidx in Hnone.
  destruct (indexOf s (js "##")); [done|]. by apply IH.
Qed.

Lemma skip_to_hashes body tail :
  indexOf (body ++ tail) (js "##") = Some (length body) ->
  skip_lazy_to_hashes (body ++ tail) = tail.
Proof.
  induction body as [|c body IH]; intros Hfirst.
  - cbn [app length] in *. rewrite skip_unfold.
    rewrite indexOf_unfold in Hfirst.
    destruct (startsWith (js "##") tail); [done|].
    destruct tail as [|c tail]; [done|].
    by destruct (indexOf tail (js "##")).
  - cbn [app length] in *.
    destruct (indexOf_cons_inv c (body ++ tail) (js "##")) as [Hstart Hidx].
    { by rewrite Hfirst. }
    rewrite skip_unfold, Hstart. rewrite Hidx in Hfirst.
    destruct (indexOf (body ++ tail) (js "##")) as [k|]; [|done].
    injection Hfirst as ->. by apply IH.
Qed.

Lemma trimStart_frame s :
  exists lead, s = lead ++ trimStart s /\ Forall (fun c => isWhiteSpace c = true) lead.
Proof.
  induction s as [|c s (lead & Hs & Hlead)]; [by exists []|].
  cbn [trimStart]. destruct (isWhiteSpace c) eqn:Hc.
  - exists (c :: lead). split; [by rewrite Hs at 1|by constructor].
  - by exists [].
Qed.

Lemma trim_frame s :
  exists lead trail,
    s = lead ++ trim s ++ trail
    /\ Forall (fun c => isWhiteSpace c = true) lead
    /\ Forall (fun c => isWhiteSpace c = true) trail.
Proof.
  destruct (trimStart_frame s) as (lead & Hs & Hlead).
  destruct (trimStart_frame (rev (trimStart s))) as (trail & Hr & Htrail).
  exists lead, (rev trail). unfold trim, trimEnd. split; [|split].
  - rewrite <- rev_app_distr, <- Hr, rev_involutive. done.
  - done.
  - by apply Forall_rev.
Qed.

(** C1 (amended). The text written back is the document without the
    marked region, stripped of leading and trailing white space, then an
    empty line, then the fragment.  Without marker nothing is removed.
    With a marker, when no [##] occurs in the text that follows the
    first marker up to the end of the document, or up to a following
    line that starts with the level-two heading prefix, the region
    removed runs from the marker to that end or heading.  What [trim]
    strips is white space only. *)
Theorem updateReadme_splices_marked_region :
  (forall doc fragment,
     indexOf doc sectionMarker = None ->
     updateReadme (Some doc) fragment = trim doc ++ nl ++ nl ++ fragment)
  /\ (forall pre body fragment,
        indexOf (pre ++ sectionMarker ++ body) sectionMarker
        = Some (length pre) ->
        indexOf body (js "##") = None ->
        updateReadme (Some (pre ++ sectionMarker ++ body)) fragment
        = trim pre ++ nl ++ nl ++ fragment)
  /\ (forall pre body tail fragment,
        indexOf (pre ++ sectionMarker ++ body ++ tail) sectionMarker
        = Some (length pre) ->
        indexOf (body ++ tail) (js "##") = Some (length body) ->
        last body = Some 10 ->
        startsWith (js "## ") tail = true ->
        updateReadme (Some (pre ++ sectionMarker ++ body ++ tail)) fragment
        = trim (pre ++ tail) ++ nl ++ nl ++ fragment)
  /\ (forall s, exists lead trail,
        s = lead ++ trim s ++ trail
        /\ Forall (fun c => isWhiteSpace c = true) lead
        /\ Forall (fun c => isWhiteSpace c = true) trail).
Proof.
  split; [|split; [|split]].
  - intros doc fragment Hnone. unfold updateReadme.
    by rewrite replace_without_marker.
  - intros pre body fragment Hfirst Hnone. unfold updateReadme.
    rewrite replace_at_marker by done.
    by rewrite skip_without_hashes, app_nil_r.
  - intros pre body tail fragment Hfirst Hhashes _ _. unfold updateReadme.
    rewrite replace_at_marker by done. by rewrite skip_to_hashes.
  - apply trim_frame.
Qed.

(** C1, as stated, fails: a document without marker that begins with an
    empty line loses it, so the text before the fragment is not the
    document with only its trailing white space trimmed. *)
Lemma leading_blank_line_is_lost :
  let doc := nl ++ js "# Title" ++ nl in
  indexOf doc sectionMarker = None
  /\ updateReadme (Some doc) (js "S") = js "# Title" ++ nl ++ nl ++ js "S"
  /\ updateReadme (Some doc) (js "S") <> trimEnd doc ++ nl ++ nl ++ js "S".
Proof. repeat split; vm_compute; congruence. Qed.

(** A run on a document that holds a section rendered before: the match
    ends at the first [###] sub-heading of the old section, so only its
    header lines are removed and the old subsections stay in front of
    the new fragment. *)
Example rerun_keeps_old_subsections :
  updateReadme
    (Some (js "# Title" ++ nl ++ nl ++ sample_render june_1))
    (sample_render august_1)
  = js "# Title" ++ nl ++ nl
    ++ drop (length (header_block (js "2025-06-01") sample_categories
                       (js "acme") (js "widgets")))
         (trim (sample_render june_1))
    ++ nl ++ nl ++ sample_render august_1.
Proof. vm_compute. reflexivity. Qed.

(** ** Issue fetcher *)

Section FetcherFacts.

Variable callTool : list_issues_args -> tool_result.
Variables owner repo : jstring.

Abbreviation req := (request owner repo).

(** From any point of the loop: [full] full pages followed by a short
    one end the loop at the short page. *)
Lemma fetch_loop_short_page (pages : nat -> list issue) (full : nat) :
  forall fuel allIssues page calls,
    (forall p, (page <= p <= page + full)%nat ->
               callTool (req p) = IssuesText (pages p)) ->
    (forall p, (page <= p < page + full)%nat ->
               (perPage <= length (pages p))%nat) ->
    (length (pages (page + full)%nat) < perPage)%nat ->
    (full < fuel)%nat ->
    fetch_loop callTool owner repo fuel allIssues page calls
    = (calls ++ map req (seq page (S full)),
       Returned (allIssues ++ concat (map pages (seq page (S full))))).
Proof.
  induction full as [|full IH]; intros fuel allIssues page calls Hcall Hfull
    Hshort Hfuel.
  - destruct fuel as [|fuel]; [lia|]. rewrite Nat.add_0_r in Hshort.
    cbn [fetch_loop seq map concat]. rewrite Hcall by lia.
    rewrite app_nil_r.
    destruct (Nat.eqb_spec (length (pages page)) 0) as [Hempty|Hsome].
    + apply length_zero_iff_nil in Hempty. by rewrite Hempty, app_nil_r.
    + by rewrite (proj2 (Nat.ltb_lt _ _) Hshort).
  - destruct fuel as [|fuel]; [lia|].
    cbn [fetch_loop]. rewrite Hcall by lia.
    pose proof (Hfull page ltac:(lia)) as Hlen. unfold perPage in Hlen.
    rewrite (proj2 (Nat.eqb_neq _ _)) by lia.
    rewrite (proj2 (Nat.ltb_ge _ _)) by (unfold perPage; lia).
    rewrite (IH fuel _ (page + 1)%nat).
    + rewrite Nat.add_1_r. cbn [seq map concat].
      by rewrite <- !app_assoc.
    + intros p Hp. apply Hcall. lia.
    + intros p Hp. apply Hfull. lia.
    + by replace (page + 1 + full)%nat with (page + S full)%nat by lia.
    + lia.
Qed.

(** C7. When the pages [1 .. full] hold at least [perPage = 100] items
    each and page [full + 1] is empty or shorter, the loop ends after
    [full + 1] iterations, whatever fuel is left: it has asked for the
    pages 1, 2, ..., [full + 1] in this order, each with page size 100,
    and returns the concatenation of these pages. *)
Theorem fetch_stops_at_first_short_page (pages : nat -> list issue)
  (full fuel : nat) :
  (forall p, (1 <= p <= S full)%nat ->
             callTool (req p) = IssuesText (pages p)) ->
  (forall p, (1 <= p <= full)%nat -> (100 <= length (pages p))%nat) ->
  (length (pages (S full)) < 100)%nat ->
  (full < fuel)%nat ->
  let calls := fst (fetchAllIssues callTool owner repo fuel) in
  fetchAllIssues callTool owner repo fuel
  = (map req (seq 1 (S full)),
     Returned (concat (map pages (seq 1 (S full)))))
  /\ map arg_page calls = seq 1 (S full)
  /\ Forall (fun a => arg_perPage a = 100%nat) calls.
Proof.
  intros Hcall Hfull Hshort Hfuel.
  assert (fetchAllIssues callTool owner repo fuel
          = (map req (seq 1 (S full)),
             Returned (concat (map pages (seq 1 (S full)))))) as Hrun.
  { unfold fetchAllIssues.
    rewrite (fetch_loop_short_page pages full); [done| | |done|done].
    - intros p Hp. apply Hcall. lia.
    - intros p Hp. unfold perPage. apply Hfull. lia. }
  cbv zeta. rewrite Hrun. cbn [fst]. split; [done|]. split.
  - rewrite <- list_fmap_compose. apply list_fmap_id.
  - apply Forall_fmap, Forall_true. done.
Qed.

End FetcherFacts.

(** * Properties *)

(** ** Categorizer *)

Section CategorizerFacts.

Variable toLowerCase : jstring -> jstring.

Abbreviation categorize := (categorizeIssues toLowerCase).
Abbreviation lowered := (lowered_labels toLowerCase).

(** A bucket that [categorize_one] extends under condition [k] for every
    issue that is not a pull request is the filter of the input by [k]. *)
Lemma fold_bucket (proj : categories -> list issue) (k : issue -> bool) :
  (forall c i, proj (categorize_one toLowerCase c i)
               = if pull_request i then proj c else push_if (k i) (proj c) i) ->
  forall issues c,
    proj (fold_left (categorize_one toLowerCase) issues c)
    = proj c ++ filter (fun i => pull_request i = false /\ k i = true) issues.
Proof.
  intros Hstep issues.
  induction issues as [|i issues IH]; intros c; simpl.
  - by rewrite app_nil_r.
  - rewrite IH, Hstep, filter_cons.
    destruct (pull_request i) eqn:Hpr.
    + rewrite decide_False by (intros [? _]; done). done.
    + unfold push_if. destruct (k i) eqn:Hk.
      * rewrite decide_True by done. by rewrite <- app_assoc.
      * rewrite decide_False by (intros [_ ?]; done). done.
Qed.

Ltac bucket_step :=
  intros c i; unfold categorize_one; destruct (pull_request i); reflexivity.

Lemma open_filter issues :
  open (categorize issues)
  = filter (fun i => pull_request i = false /\ is_open i = true) issues.
Proof. apply (fold_bucket open is_open). bucket_step. Qed.

Lemma closed_filter issues :
  closed (categorize issues)
  = filter (fun i => pull_request i = false /\ negb (is_open i) = true) issues.
Proof. apply (fold_bucket closed (fun i => negb (is_open i))). bucket_step. Qed.

Lemma bugs_filter issues :
  bugs (categorize issues)
  = filter (fun i => pull_request i = false /\ some_bug (lowered i) = true)
      issues.
Proof. apply (fold_bucket bugs (fun i => some_bug (lowered i))). bucket_step. Qed.

Lemma enhancements_filter issues :
  enhancements (categorize issues)
  = filter (fun i => pull_request i = false
                     /\ some_enhancement (lowered i) = true) issues.
Proof.
  apply (fold_bucket enhancements (fun i => some_enhancement (lowered i))).
  bucket_step.
Qed.

Lemma documentation_filter issues :
  documentation (categorize issues)
  = filter (fun i => pull_request i = false
                     /\ some_documentation (lowered i) = true) issues.
Proof.
  apply (fold_bucket documentation (fun i => some_documentation (lowered i))).
  bucket_step.
Qed.

Lemma help_wanted_filter issues :
  help_wanted (categorize issues)
  = filter (fun i => pull_request i = false
                     /\ some_help_wanted (lowered i) = true) issues.
Proof.
  apply (fold_bucket help_wanted (fun i => some_help_wanted (lowered i))).
  bucket_step.
Qed.

Lemma good_first_issue_filter issues :
  good_first_issue (categorize issues)
  = filter (fun i => pull_request i = false
                     /\ some_good_first_issue (lowered i) = true) issues.
Proof.
  apply (fold_bucket good_first_issue
           (fun i => some_good_first_issue (lowered i))).
  bucket_step.
Qed.

Lemma is_open_spec i : is_open i = true <-> state i = js "open".
Proof.
  unfold is_open. rewrite <- Is_true_true. apply bool_decide_spec.
Qed.

(** C3. The open and closed buckets together hold, as multisets, the
    input without its pull requests; no issue is in both; and an issue
    that is not a pull request is in the open bucket exactly when its
    state is 'open' and in the closed bucket exactly when it is not. *)
Theorem open_closed_partition (issues : list issue) :
  let c := categorize issues in
  open c ++ closed c ≡ₚ filter (fun i => pull_request i = false) issues
  /\ (forall i, i ∈ open c -> i ∉ closed c)
  /\ (forall i, i ∈ issues -> pull_request i = false ->
        (i ∈ open c <-> state i = js "open")
        /\ (i ∈ closed c <-> state i <> js "open")).
Proof.
  cbn zeta. rewrite open_filter, closed_filter. split; [|split].
  - induction issues as [|i issues IH]; [done|].
    rewrite !filter_cons.
    destruct (pull_request i) eqn:Hpr, (is_open i) eqn:Hop; simpl.
    all: repeat (first [ rewrite decide_True by (try split; done)
                       | rewrite decide_False by (try intros [? ?]; done) ]).
    all: try done.
    + simpl. by f_equiv.
    + rewrite <- Permutation_middle. by f_equiv.
  - intros i [[_ Ho] _]%list_elem_of_filter [[_ Hc] _]%list_elem_of_filter.
    rewrite Ho in Hc. done.
  - intros i Hin Hpr. rewrite !list_elem_of_filter, <- is_open_spec.
    destruct (is_open i); simpl; split; split; try tauto; try done.
    all: intros; try (split; [split|]; done).
    all: try (exfalso; tauto).
    destruct H as [[_ ?] _]; done.
Qed.


Lemma label_lower_name l :
  label_lower toLowerCase l = toLowerCase (name_of_label l).
Proof. by destruct l as [s|[[|u s]|]|]. Qed.

Lemma some_keyword (test : jstring -> bool) (kws : list jstring) (i : issue) :
  (forall l, test l = existsb (includes l) kws) ->
  existsb test (lowered i) = true <-> label_contains toLowerCase kws i.
Proof.
  intros Htest. unfold lowered_labels, label_contains.
  rewrite existsb_exists. split.
  - intros (s & Hs & Hkw). apply in_map_iff in Hs as (l & <- & Hl).
    rewrite Htest in Hkw. apply existsb_exists in Hkw as (kw & Hin & Hkw).
    exists l, kw. rewrite !list_elem_of_In, <- label_lower_name. done.
  - intros (l & kw & Hl & Hin & Hkw).
    exists (label_lower toLowerCase l). split.
    + apply in_map, list_elem_of_In, Hl.
    + rewrite Htest. apply existsb_exists. exists kw.
      rewrite <- list_elem_of_In, label_lower_name. done.
Qed.

Ltac keyword_test :=
  apply some_keyword; intros l; simpl; rewrite ?orb_false_r, ?orb_assoc;
  reflexivity.

Lemma some_bug_spec i :
  some_bug (lowered i) = true <-> label_contains toLowerCase bug_keywords i.
Proof. keyword_test. Qed.

Lemma some_enhancement_spec i :
  some_enhancement (lowered i) = true
  <-> label_contains toLowerCase enhancement_keywords i.
Proof. keyword_test. Qed.

Lemma some_documentation_spec i :
  some_documentation (lowered i) = true
  <-> label_contains toLowerCase documentation_keywords i.
Proof. keyword_test. Qed.

Lemma some_help_wanted_spec i :
  some_help_wanted (lowered i) = true
  <-> label_contains toLowerCase help_wanted_keywords i.
Proof. keyword_test. Qed.

Lemma some_good_first_issue_spec i :
  some_good_first_issue (lowered i) = true
  <-> label_contains toLowerCase good_first_issue_keywords i.
Proof. keyword_test. Qed.

Lemma no_labels_no_keyword kws i :
  labels_or_empty i = [] -> ~ label_contains toLowerCase kws i.
Proof.
  intros Hnil (l & kw & Hl & _). rewrite Hnil in Hl. by apply elem_of_nil in Hl.
Qed.

(** C4. For an issue of the input that is not a pull request, being in a
    label-derived bucket is the same as having a label whose lower-cased
    name contains one of the bucket's keywords; an issue without labels
    is in none of the five buckets. *)
Theorem label_buckets_by_keyword (issues : list issue) (i : issue) :
  i ∈ issues -> pull_request i = false ->
  let c := categorize issues in
  (i ∈ bugs c <-> label_contains toLowerCase bug_keywords i)
  /\ (i ∈ enhancements c
      <-> label_contains toLowerCase enhancement_keywords i)
  /\ (i ∈ documentation c
      <-> label_contains toLowerCase documentation_keywords i)
  /\ (i ∈ help_wanted c
      <-> label_contains toLowerCase help_wanted_keywords i)
  /\ (i ∈ good_first_issue c
      <-> label_contains toLowerCase good_first_issue_keywords i)
  /\ (labels_or_empty i = [] ->
      (i ∉ bugs c) /\ (i ∉ enhancements c) /\ (i ∉ documentation c)
      /\ (i ∉ help_wanted c) /\ (i ∉ good_first_issue c)).
Proof.
  intros Hin Hpr c.
  assert (Hb : i ∈ bugs c <-> label_contains toLowerCase bug_keywords i).
  { subst c. rewrite bugs_filter, list_elem_of_filter, some_bug_spec. tauto. }
  assert (He : i ∈ enhancements c
               <-> label_contains toLowerCase enhancement_keywords i).
  { subst c. rewrite enhancements_filter, list_elem_of_filter,
      some_enhancement_spec. tauto. }
  assert (Hd : i ∈ documentation c
               <-> label_contains toLowerCase documentation_keywords i).
  { subst c. rewrite documentation_filter, list_elem_of_filter,
      some_documentation_spec. tauto. }
  assert (Hh : i ∈ help_wanted c
               <-> label_contains toLowerCase help_wanted_keywords i).
  { subst c. rewrite help_wanted_filter, list_elem_of_filter,
      some_help_wanted_spec. tauto. }
  assert (Hg : i ∈ good_first_issue c
               <-> label_contains toLowerCase good_first_issue_keywords i).
  { subst c. rewrite good_first_issue_filter, list_elem_of_filter,
      some_good_first_issue_spec. tauto. }
  do 5 (split; [assumption|]).
  intros Hnil. pose proof (no_labels_no_keyword bug_keywords i Hnil).
  pose proof (no_labels_no_keyword enhancement_keywords i Hnil).
  pose proof (no_labels_no_keyword documentation_keywords i Hnil).
  pose proof (no_labels_no_keyword help_wanted_keywords i Hnil).
  pose proof (no_labels_no_keyword good_first_issue_keywords i Hnil).
  tauto.
Qed.

(** C9. Every bucket is a subsequence of the input list: its entries
    are entries of the input, in the input's order, none repeated more
    often than the input repeats it. *)
Theorem buckets_are_subsequences (issues : list issue) :
  let c := categorize issues in
  open c `sublist_of` issues
  /\ closed c `sublist_of` issues
  /\ bugs c `sublist_of` issues
  /\ enhancements c `sublist_of` issues
  /\ documentation c `sublist_of` issues
  /\ help_wanted c `sublist_of` issues
  /\ good_first_issue c `sublist_of` issues.
Proof.
  cbn zeta.
  rewrite open_filter, closed_filter, bugs_filter, enhancements_filter,
    documentation_filter, help_wanted_filter, good_first_issue_filter.
  repeat split; apply sublist_filter.
Qed.


Lemma existsb_drop_middle {A B} (test : B -> bool) (g : A -> B) before x after :
  test (g x) = false ->
  existsb test (map g (before ++ x :: after))
  = existsb test (map g (before ++ after)).
Proof.
  intros Hx. rewrite !map_app, !existsb_app. cbn [map existsb].
  by rewrite Hx.
Qed.

Lemma existsb_all_false {A B} (test : B -> bool) (g : A -> B) (P : A -> Prop) l :
  (forall x, P x -> test (g x) = false) -> Forall P l ->
  existsb test (map g l) = false.
Proof.
  intros Hfalse Hall. induction Hall as [|x l Hx _ IH]; [done|].
  cbn [map existsb]. by rewrite (Hfalse x Hx), IH.
Qed.

Lemma malformed_lower l :
  toLowerCase [] = [] -> malformed_label l = true ->
  label_lower toLowerCase l = [].
Proof. intros Hnil. by destruct l as [s|[[|u s]|]|]. Qed.

Lemma malformed_display l :
  malformed_label l = true -> label_display l = js "unknown".
Proof. by destruct l as [s|[[|u s]|]|]. Qed.

(** C10. A label that is neither a string nor an object with a
    non-empty name is the empty string to the categorizer: with or
    without it the five keyword tests of an issue give the same answer,
    and an issue with only such labels is in no label-derived bucket.
    The renderer shows the same label as the text 'unknown': the line
    of an issue with such a label among its labels is the link, the
    state icon where asked for, the title, the labels between backticks
    with 'unknown' at the place of that label, and the assignee.  Both
    functions are total on such labels. *)
Theorem malformed_label_empty_and_unknown (l : label)
  (before after : list label) (i : issue) :
  toLowerCase [] = [] -> malformed_label l = true ->
  let with_l := with_labels i (before ++ l :: after) in
  let without_l := with_labels i (before ++ after) in
  let as_unknown :=
    with_labels i (before ++ LabelString (js "unknown") :: after) in
  label_lower toLowerCase l = []
  /\ some_bug (lowered with_l) = some_bug (lowered without_l)
  /\ some_enhancement (lowered with_l) = some_enhancement (lowered without_l)
  /\ some_documentation (lowered with_l)
     = some_documentation (lowered without_l)
  /\ some_help_wanted (lowered with_l) = some_help_wanted (lowered without_l)
  /\ some_good_first_issue (lowered with_l)
     = some_good_first_issue (lowered without_l)
  /\ (forall issues j,
        Forall (fun l' => malformed_label l' = true) (labels_or_empty j) ->
        let c := categorize issues in
        (j ∉ bugs c) /\ (j ∉ enhancements c) /\ (j ∉ documentation c)
        /\ (j ∉ help_wanted c) /\ (j ∉ good_first_issue c))
  /\ label_display l = js "unknown"
  /\ (forall includeState,
        formatIssueForReadme with_l includeState
        = formatIssueForReadme as_unknown includeState)
  /\ (forall includeState,
        formatIssueForReadme with_l includeState
        = js "- [#" ++ decimalN (number i) ++ js "](" ++ html_url i ++ js ")"
          ++ (if includeState then js " " ++ state_icon i else [])
          ++ js " **" ++ title i ++ js "**"
          ++ js " `"
          ++ join (js "`, `")
               (map label_display before ++ js "unknown"
                :: map label_display after)
          ++ js "`"
          ++ match assignee i with
             | Some login => js " - Assigned to @" ++ login
             | None => []
             end)
  /\ formatIssueForReadme (with_labels i [l]) false
     = js "- [#" ++ decimalN (number i) ++ js "](" ++ html_url i ++ js ")"
       ++ js " **" ++ title i ++ js "**" ++ js " `unknown`"
       ++ match assignee i with
          | Some login => js " - Assigned to @" ++ login
          | None => []
          end.
Proof.
  intros Hnil Hbad with_l without_l as_unknown.
  pose proof (malformed_lower l Hnil Hbad) as Hlow.
  split; [done|].
  do 5 (split; [apply existsb_drop_middle; rewrite Hlow; reflexivity|]).
  split; [|split; [by apply malformed_display|split; [|split]]].
  - intros issues j Hall c. subst c.
    rewrite bugs_filter, enhancements_filter, documentation_filter,
      help_wanted_filter, good_first_issue_filter, !list_elem_of_filter.
    assert (forall test : jstring -> bool, test [] = false ->
              existsb test (lowered j) = false) as Hnone.
    { intros test Htest.
      apply (existsb_all_false test _ (fun l' => malformed_label l' = true));
        [|done].
      intros l' Hl'. by rewrite (malformed_lower l' Hnil Hl'). }
    unfold some_bug, some_enhancement, some_documentation, some_help_wanted,
      some_good_first_issue.
    rewrite !Hnone by reflexivity.
    repeat split; intros [[_ ?] _]; done.
  - intros includeState. unfold formatIssueForReadme, labels_or_empty.
    subst with_l as_unknown. cbn [with_labels labels number html_url title
      assignee]. rewrite !length_app, !map_app. cbn [length map].
    rewrite (malformed_display l Hbad). reflexivity.
  - intros includeState.
    unfold formatIssueForReadme, labels_or_empty, state_icon, is_open.
    subst with_l. cbn [with_labels labels number html_url title assignee
      state]. rewrite length_app, map_app. cbn [length map].
    rewrite (malformed_display l Hbad).
    rewrite Nat.add_succ_r. change (0 <? S _)%nat with true. cbv iota.
    by rewrite <- !app_assoc.
  - unfold formatIssueForReadme, labels_or_empty.
    cbn [with_labels labels number html_url title assignee length map].
    rewrite (malformed_display l Hbad).
    change (0 <? 1)%nat with true. cbv iota.
    change (join (js "`, `") [js "unknown"]) with (js "unknown").
    change (js " `unknown`") with (js " `" ++ js "unknown" ++ js "`").
    by rewrite <- !app_assoc.
Qed.

End CategorizerFacts.

(** ** Section renderer *)

Section RendererFacts.

Variable toISOString : Z -> jstring.
Variable Date_parse : jstring -> option Z.
Variable LocalTZA : Z -> bool -> Z.

Abbreviation generate :=
  (generateIssuesSection toISOString Date_parse LocalTZA).

Lemma forEach_line_lines st l : forall section,
  forEach_line st l section = section ++ issue_lines st l.
Proof.
  unfold forEach_line, issue_lines.
  induction l as [|i l IH]; intros section; cbn [fold_left map concat].
  - by rewrite app_nil_r.
  - rewrite IH. by rewrite <- !app_assoc.
Qed.

Lemma take_min_length {A} (n : nat) (l : list A) :
  take (Nat.min n (length l)) l = take n l.
Proof.
  destruct (Nat.le_ge_cases n (length l)) as [Hle|Hge].
  - by rewrite Nat.min_l.
  - rewrite Nat.min_r by done. by rewrite !take_ge.
Qed.

Lemma open_step owner repo opens section :
  (if (0 <? length opens)%nat then
     (if (20 <? length opens)%nat then
        forEach_line false (take 20 opens)
          (section ++ (js "### 🔓 Open Issues (" ++ decimal (length opens)
                       ++ js ")" ++ nl ++ nl))
        ++ (nl ++ js "... and " ++ decimal (length opens - 20)
            ++ js " more open issues. [View all open issues]("
            ++ issues_search_url owner repo ++ js ")" ++ nl)
      else
        forEach_line false (take 20 opens)
          (section ++ (js "### 🔓 Open Issues (" ++ decimal (length opens)
                       ++ js ")" ++ nl ++ nl))) ++ nl
   else section)
  = section ++ open_block owner repo opens.
Proof.
  unfold open_block. rewrite take_min_length, !forEach_line_lines.
  destruct (length opens) as [|n].
  - change (0 <? 0)%nat with false. cbv iota. by rewrite app_nil_r.
  - change (0 <? S n)%nat with true. cbv iota. unfold more_open_line.
    destruct (20 <? S n)%nat; by rewrite <- ?app_assoc.
Qed.

Lemma icon_step heading total shown section :
  (if (0 <? total)%nat then
     forEach_line true shown
       (section ++ (heading ++ decimal total ++ js ")" ++ nl ++ nl)) ++ nl
   else section)
  = section ++ icon_block heading total shown.
Proof.
  unfold icon_block. rewrite forEach_line_lines.
  destruct total as [|n].
  - change (0 <? 0)%nat with false. cbv iota. by rewrite app_nil_r.
  - change (0 <? S n)%nat with true. cbv iota. by rewrite <- ?app_assoc.
Qed.

Lemma filter_clocked_run readings l : forall k,
  filter_clocked (recently_closed_callback Date_parse LocalTZA) l readings k
  = (kept_recent Date_parse LocalTZA readings k l, (k + length l)%nat).
Proof.
  induction l as [|i l IH]; intros k; cbn [filter_clocked kept_recent length].
  - unfold ret. by rewrite Nat.add_0_r.
  - unfold bind at 1. unfold recently_closed_callback at 1.
    unfold bind at 1. unfold newDate at 1. cbv iota beta.
    unfold ret at 1. cbv iota beta. unfold bind at 1. rewrite IH.
    unfold ret. by rewrite Nat.add_succ_r.
Qed.

(** The rendered section is the concatenation of its blocks. *)
Lemma generate_layout c owner repo readings :
  run_clock (generate c owner repo) readings
  = header_block (split_head 84 (toISOString (readings 0%nat))) c owner repo
    ++ open_block owner repo (open c)
    ++ bugs_block c ++ enhancements_block c ++ help_wanted_block c
    ++ good_first_issue_block c
    ++ recently_closed_block
         (take 10 (kept_recent Date_parse LocalTZA readings 1 (closed c)))
    ++ statistics_block c (toISOString (readings (S (length (closed c))))).
Proof.
  unfold run_clock, generateIssuesSection.
  cbv beta iota zeta delta [bind newDate ret].
  rewrite filter_clocked_run.
  cbv beta iota zeta delta [fst].
  rewrite open_step.
  rewrite (icon_step (js "### 🐛 Bug Reports (") (length (bugs c))
             (take 10 (bugs c))).
  rewrite (icon_step (js "### ✨ Feature Requests & Enhancements (")
             (length (enhancements c)) (take 10 (enhancements c))).
  rewrite (icon_step (js "### 🆘 Help Wanted (") (length (help_wanted c))
             (take 5 (help_wanted c))).
  rewrite (icon_step (js "### 🌟 Good First Issues (")
             (length (good_first_issue c)) (good_first_issue c)).
  rewrite (icon_step (js "### ✅ Recently Closed Issues (")).
  unfold header_block, header_before_date, header_after_date, bugs_block,
    enhancements_block, help_wanted_block, good_first_issue_block,
    recently_closed_block, statistics_block, statistics_before_stamp,
    statistics_after_stamp.
  rewrite <- !app_assoc. reflexivity.
Qed.

Lemma kept_recent_frozen readings now l :
  frozen readings now ->
  forall k, kept_recent Date_parse LocalTZA readings k l
            = filter (closed_after_cutoff Date_parse LocalTZA now) l.
Proof.
  intros Hfrozen. induction l as [|i l IH]; intros k; [done|].
  cbn [kept_recent]. rewrite filter_cons, IH, Hfrozen.
  unfold closed_after.
  destruct (closedDate Date_parse i) as [t|] eqn:Ht.
  - destruct (setDate_minus_30 LocalTZA now) as [cutoff|] eqn:Hcut.
    + destruct (Z.ltb_spec cutoff t) as [Hlt|Hge].
      * rewrite decide_True; [done|]. exists t, cutoff.
        by rewrite Ht, Hcut.
      * rewrite decide_False; [done|].
        intros (t' & cutoff' & Ht' & Hcut' & Hlt).
        rewrite Ht in Ht'. rewrite Hcut in Hcut'.
        injection Ht' as <-. injection Hcut' as <-. lia.
    + rewrite decide_False; [done|].
      intros (t' & cutoff' & _ & Hcut' & _). by rewrite Hcut in Hcut'.
  - rewrite decide_False; [done|]. intros (t' & cutoff' & Ht' & _).
    by rewrite Ht in Ht'.
Qed.

(** Thirty days before the local date, at the same local time of day. *)
Lemma setDate_minus_30_local now :
  setDate_minus_30 LocalTZA now
  = TimeClip (UTC LocalTZA (LocalTime LocalTZA now - 30 * msPerDay)).
Proof.
  unfold setDate_minus_30, Day, TimeWithinDay. cbv zeta. f_equal. f_equal.
  pose proof (Z.div_mod (LocalTime LocalTZA now) msPerDay) as Hdm.
  unfold msPerDay in *. lia.
Qed.

(** Where the zone has, thirty days back, the offset it has at [now],
    the cutoff is 720 hours before [now]. *)
Lemma setDate_minus_30_same_offset now :
  LocalTZA (LocalTime LocalTZA now - 30 * msPerDay) false = LocalTZA now true ->
  setDate_minus_30 LocalTZA now = TimeClip (now - 30 * msPerDay).
Proof.
  intros Hsame. rewrite setDate_minus_30_local. unfold UTC. rewrite Hsame.
  unfold LocalTime. f_equal. lia.
Qed.

Lemma filter_ext_in {A} (P Q : A -> Prop) `{!forall x, Decision (P x)}
  `{!forall x, Decision (Q x)} (l : list A) :
  (forall x, x ∈ l -> P x <-> Q x) -> filter P l = filter Q l.
Proof.
  induction l as [|x l IH]; intros Hiff; [done|].
  rewrite !filter_cons.
  rewrite IH by (intros y Hy; apply Hiff; by right).
  destruct (decide (P x)) as [HP|HP], (decide (Q x)) as [HQ|HQ];
    try done; exfalso.
  - apply HQ, (Hiff x); [by left|done].
  - apply HP, (Hiff x); [by left|done].
Qed.

(** C5. The open-issues subsection follows the header; it is empty for
    an empty bucket, lists every entry in bucket order up to twenty
    entries, and past twenty lists the first twenty followed by a single
    pointer line counting the remaining [n - 20] (five for [n = 25]) with
    the link to the open-issues search. *)
Theorem open_subsection_first_twenty (c : categories) (owner repo : jstring)
  (readings : nat -> Z) :
  let n := length (open c) in
  let heading := js "### 🔓 Open Issues (" ++ decimal n ++ js ")" ++ nl ++ nl in
  run_clock (generate c owner repo) readings
  = header_block (split_head 84 (toISOString (readings 0%nat))) c owner repo
    ++ open_block owner repo (open c)
    ++ blocks_after_open toISOString Date_parse LocalTZA c readings
  /\ (n = 0%nat -> open_block owner repo (open c) = [])
  /\ ((0 < n <= 20)%nat ->
      open_block owner repo (open c)
      = heading ++ issue_lines false (open c) ++ nl)
  /\ ((20 < n)%nat ->
      open_block owner repo (open c)
      = heading ++ issue_lines false (take 20 (open c)) ++ nl
        ++ more_open_line n owner repo ++ nl ++ nl)
  /\ length (take (Nat.min 20 n) (open c)) = Nat.min 20 n
  /\ (n = 25%nat ->
      more_open_line n owner repo
      = js "... and 5 more open issues. [View all open issues](https://github.com/"
        ++ owner ++ js "/" ++ repo ++ js "/issues?q=is%3Aissue+is%3Aopen)").
Proof.
  intros n heading. subst heading. split; [apply generate_layout|].
  unfold open_block. cbv zeta. rewrite take_min_length. fold n.
  split; [|split; [|split; [|split]]].
  - intros ->. done.
  - intros [Hpos Hle]. destruct n as [|m] eqn:Hn; [lia|].
    rewrite (proj2 (Nat.ltb_ge 20 (S m))) by lia.
    rewrite take_ge by lia. by rewrite <- !app_assoc.
  - intros Hgt. destruct n as [|m] eqn:Hn; [lia|].
    rewrite (proj2 (Nat.ltb_lt 20 (S m))) by lia.
    by rewrite <- !app_assoc.
  - rewrite length_take. lia.
  - intros ->. unfold more_open_line, issues_search_url.
    change (decimal (25 - 20)) with (js "5").
    rewrite <- !app_assoc. reflexivity.
Qed.

(** C8 (amended). Against a clock frozen at [now], the recently-closed
    subsection comes between the label subsections and the statistics
    and lists the closed issues whose closing time is later than the
    cutoff, in bucket order, cut to the first ten; without such an issue
    the subsection is empty.  The cutoff is [now] taken back thirty days
    on the local calendar at the same local time of day; where the zone
    has the same offset at both ends it is 720 hours before [now], and
    then, for a bucket without a closing time later than [now], the
    issues listed are those closed within the last thirty days. *)
Theorem recently_closed_last_30_days (c : categories) (owner repo : jstring)
  (readings : nat -> Z) (now : Z) :
  frozen readings now ->
  let recent :=
    take 10 (filter (closed_after_cutoff Date_parse LocalTZA now) (closed c)) in
  run_clock (generate c owner repo) readings
  = blocks_before_recent (split_head 84 (toISOString now)) c owner repo
    ++ recently_closed_block recent
    ++ statistics_block c (toISOString now)
  /\ (recent = [] -> recently_closed_block recent = [])
  /\ (recent <> [] ->
      recently_closed_block recent
      = js "### ✅ Recently Closed Issues (" ++ decimal (length recent)
        ++ js ")" ++ nl ++ nl ++ issue_lines true recent ++ nl)
  /\ (forall i, i ∈ recent ->
        i ∈ closed c /\ closed_after_cutoff Date_parse LocalTZA now i)
  /\ recent `sublist_of` closed c
  /\ (length recent <= 10)%nat
  /\ setDate_minus_30 LocalTZA now
     = TimeClip (now - 30 * msPerDay
                 + (LocalTZA now true
                    - LocalTZA (LocalTime LocalTZA now - 30 * msPerDay) false))
  /\ (LocalTZA (LocalTime LocalTZA now - 30 * msPerDay) false
      = LocalTZA now true ->
      (Z.abs (now - 30 * msPerDay) <= 8640000000000000)%Z ->
      (forall i t, i ∈ closed c -> closedDate Date_parse i = Some t ->
                   (t <= now)%Z) ->
      recent
      = take 10 (filter (closed_in_last_30_days Date_parse now) (closed c))).
Proof.
  intros Hfrozen recent.
  split; [|split; [|split; [|split; [|split; [|split; [|split]]]]]].
  - rewrite generate_layout, (kept_recent_frozen readings now) by done.
    rewrite (Hfrozen 0%nat), (Hfrozen (S (length (closed c)))).
    unfold blocks_before_recent.
    by rewrite <- !app_assoc.
  - intros ->. done.
  - intros Hne. unfold recently_closed_block, icon_block.
    destruct recent as [|i rest]; [done|]. reflexivity.
  - intros i Hi. apply elem_of_take in Hi as (k & Hi & _).
    apply list_elem_of_lookup_2, list_elem_of_filter in Hi. tauto.
  - unfold recent. etrans; [apply sublist_take|apply sublist_filter].
  - unfold recent. rewrite length_take. lia.
  - rewrite setDate_minus_30_local. unfold UTC, LocalTime. f_equal. lia.
  - intros Hsame Hrange Hpast. unfold recent. f_equal.
    apply filter_ext_in. intros i Hi.
    unfold closed_after_cutoff, closed_in_last_30_days.
    rewrite (setDate_minus_30_same_offset now Hsame). unfold TimeClip.
    rewrite (proj2 (Z.leb_le _ _) Hrange).
    split.
    + intros (t & cutoff & Ht & [= <-] & Hlt). exists t.
      split; [done|]. split; [done|]. by apply (Hpast i).
    + intros (t & Ht & Hlt & _). by exists t, (now - 30 * msPerDay)%Z.
Qed.


Lemma format_icon_split (i : issue) :
  exists before after,
    formatIssueForReadme i false = before ++ after
    /\ formatIssueForReadme i true = before ++ js " " ++ state_icon i ++ after.
Proof.
  exists (js "- [#" ++ decimalN (number i) ++ js "](" ++ html_url i ++ js ")").
  eexists. unfold formatIssueForReadme, state_icon. cbv zeta.
  split; rewrite <- ?app_assoc; reflexivity.
Qed.

(** C2 (amended). The state icon is left out of the lines of the
    open-issues subsection and put on the lines of every other
    subsection (bug reports, enhancements, help wanted, good first
    issues, recently closed), whatever the states of the issues listed
    there.  The open, unassigned issue 42 'Crash on startup' labelled
    'bug' is rendered without icon in the open-issues subsection and
    with the open-lock icon in the bug-reports subsection, in both
    without assignee clause. *)
Theorem state_icon_outside_open_list (c : categories)
  (owner repo url : jstring) (readings : nat -> Z) :
  run_clock (generate c owner repo) readings
  = header_block (split_head 84 (toISOString (readings 0%nat))) c owner repo
    ++ open_block owner repo (open c)
    ++ icon_block (js "### 🐛 Bug Reports (") (length (bugs c))
         (take 10 (bugs c))
    ++ icon_block (js "### ✨ Feature Requests & Enhancements (")
         (length (enhancements c)) (take 10 (enhancements c))
    ++ icon_block (js "### 🆘 Help Wanted (") (length (help_wanted c))
         (take 5 (help_wanted c))
    ++ icon_block (js "### 🌟 Good First Issues (")
         (length (good_first_issue c)) (good_first_issue c)
    ++ (let recent :=
          take 10 (kept_recent Date_parse LocalTZA readings 1 (closed c)) in
        icon_block (js "### ✅ Recently Closed Issues (") (length recent) recent)
    ++ statistics_block c (toISOString (readings (S (length (closed c)))))
  /\ (exists pointer,
        open_block owner repo (open c)
        = match open c with
          | [] => []
          | _ :: _ =>
            js "### 🔓 Open Issues (" ++ decimal (length (open c)) ++ js ")"
            ++ nl ++ nl ++ issue_lines false (take 20 (open c))
            ++ pointer ++ nl
          end)
  /\ (forall heading total shown,
        icon_block heading (S total) shown
        = heading ++ decimal (S total) ++ js ")" ++ nl ++ nl
          ++ issue_lines true shown ++ nl)
  /\ (forall i, exists before after,
        formatIssueForReadme i false = before ++ after
        /\ formatIssueForReadme i true
           = before ++ js " " ++ state_icon i ++ after)
  /\ (let i := crash_issue url in
      let c42 := categorizeIssues ascii_toLowerCase [i] in
      open c42 = [i] /\ bugs c42 = [i]
      /\ open_block owner repo (open c42)
         = js "### 🔓 Open Issues (1)" ++ nl ++ nl
           ++ js "- [#42](" ++ url ++ js ") **Crash on startup** `bug`"
           ++ nl ++ nl
      /\ bugs_block c42
         = js "### 🐛 Bug Reports (1)" ++ nl ++ nl
           ++ js "- [#42](" ++ url ++ js ") 🔓 **Crash on startup** `bug`"
           ++ nl ++ nl).
Proof.
  split; [apply generate_layout|].
  split.
  - exists (if (20 <? length (open c))%nat
            then nl ++ more_open_line (length (open c)) owner repo ++ nl
            else []).
    unfold open_block. cbv zeta. rewrite take_min_length.
    by destruct (open c).
  - split; [done|]. split; [apply format_icon_split|].
    cbv zeta.
    assert (open (categorizeIssues ascii_toLowerCase [crash_issue url])
            = [crash_issue url]) as -> by (vm_compute; reflexivity).
    assert (bugs_block (categorizeIssues ascii_toLowerCase [crash_issue url])
            = icon_block (js "### 🐛 Bug Reports (") 1 [crash_issue url])
      as -> by (unfold bugs_block; vm_compute; reflexivity).
    assert (bugs (categorizeIssues ascii_toLowerCase [crash_issue url])
            = [crash_issue url]) as -> by (vm_compute; reflexivity).
    do 2 (split; [reflexivity|]).
    assert (formatIssueForReadme (crash_issue url) false
            = js "- [#42](" ++ url ++ js ") **Crash on startup** `bug`")
      as Hplain by (vm_compute; reflexivity).
    assert (formatIssueForReadme (crash_issue url) true
            = js "- [#42](" ++ url ++ js ") 🔓 **Crash on startup** `bug`")
      as Hicon by (vm_compute; reflexivity).
    unfold open_block, icon_block, issue_lines.
    cbn [length take map concat Nat.min Nat.ltb Nat.leb].
    rewrite Hplain, Hicon, !app_nil_r, <- !app_assoc.
    split; vm_compute; reflexivity.
Qed.


End RendererFacts.

(** C2, as stated, fails: in the section rendered for the sample issues
    the line of issue 42 under 'Bug Reports' carries the state icon; the
    line without icon does not follow that heading. *)
Lemma bug_report_line_carries_icon :
  bugs sample_categories = [issue42]
  /\ includes (sample_render june_1)
       (js "### 🐛 Bug Reports (1)" ++ nl ++ nl
        ++ js "- [#42](https://github.com/acme/widgets/issues/42) **Crash on startup** `bug`"
        ++ nl) = false
  /\ includes (sample_render june_1)
       (js "### 🐛 Bug Reports (1)" ++ nl ++ nl
        ++ js "- [#42](https://github.com/acme/widgets/issues/42) 🔓 **Crash on startup** `bug`"
        ++ nl) = true.
Proof. repeat split; vm_compute; reflexivity. Qed.


(** C8, as stated, fails: issue 8 carries a closing time one month after
    the clock reading of 1 June 2025, so it was not closed in the thirty
    days before that reading; rendered in UTC it is listed as recently
    closed. *)
Lemma later_closing_is_listed :
  closed future_categories = [issue8]
  /\ closedDate parse_timestamp issue8 = Some 1751328000000%Z
  /\ (june_1 < 1751328000000)%Z
  /\ filter (closed_in_last_30_days parse_timestamp june_1)
       (closed future_categories) = []
  /\ includes
       (run_clock (generateIssuesSection utc_toISOString parse_timestamp
                     utc_zone future_categories (js "acme") (js "widgets"))
          (fun _ => june_1))
       (js "### ✅ Recently Closed Issues (1)" ++ nl ++ nl
        ++ js "- [#8](https://github.com/acme/widgets/issues/8) 🔒 **Flaky test**"
        ++ nl) = true.
Proof. repeat split; vm_compute; reflexivity. Qed.

(** Across the start of summer time the cutoff is not 720 hours before
    the clock: in New York, at 2025-03-25T12:00Z, it is 2025-02-23T13:00Z
    (08:00 local time on both days), 719 hours earlier; issue 11, closed
    at 12:30Z on 23 February, is left out. *)
Example new_york_cutoff_across_summer_time :
  parse_timestamp (js "2025-03-25T12:00:00Z") = Some march_25_noon
  /\ setDate_minus_30 new_york_zone march_25_noon
     = parse_timestamp (js "2025-02-23T13:00:00Z")
  /\ setDate_minus_30 utc_zone march_25_noon
     = parse_timestamp (js "2025-02-23T12:00:00Z")
  /\ setDate_minus_30 utc_zone march_25_noon
     = Some (march_25_noon - 30 * msPerDay)%Z
  /\ filter (closed_in_last_30_days parse_timestamp march_25_noon) [issue11]
     = [issue11]
  /\ filter (closed_after_cutoff parse_timestamp utc_zone march_25_noon)
       [issue11] = [issue11]
  /\ filter (closed_after_cutoff parse_timestamp new_york_zone march_25_noon)
       [issue11] = [].
Proof. repeat split; vm_compute; reflexivity. Qed.

(** ** Runs on sample data *)

Example js_surrogate_pair : js "📋" = [0xD83D; 0xDCCB].
Proof. reflexivity. Qed.

Example updateReadme_without_file :
  updateReadme None (js "S")
  = js "# Project Title" ++ nl ++ nl ++ js "Welcome to this project!"
    ++ nl ++ nl ++ js "S".
Proof. reflexivity. Qed.

Example sample_buckets :
  open sample_categories = [issue42]
  /\ closed sample_categories = [issue7]
  /\ bugs sample_categories = [issue42]
  /\ documentation sample_categories = [issue7]
  /\ enhancements sample_categories = [].
Proof. repeat split; vm_compute; reflexivity. Qed.

(** Twenty-five open issues: twenty lines without icon under the open
    heading, the pointer to the five others, and the first ten again,
    with icon, as bug reports. *)
Example twenty_five_open_issues :
  count_occurrences (render_copies 25)
    (js "- [#42](https://github.com/acme/widgets/issues/42) **") = 20%nat
  /\ count_occurrences (render_copies 25)
       (js "- [#42](https://github.com/acme/widgets/issues/42) 🔓 **") = 10%nat
  /\ count_occurrences (render_copies 25)
       (nl ++ js "... and 5 more open issues. [View all open issues](https://github.com/acme/widgets/issues?q=is%3Aissue+is%3Aopen)" ++ nl)
     = 1%nat.
Proof. repeat split; vm_compute; reflexivity. Qed.

Example three_open_issues :
  count_occurrences (render_copies 3)
    (js "- [#42](https://github.com/acme/widgets/issues/42) **") = 3%nat
  /\ includes (render_copies 3) (js "more open issues") = false.
Proof. repeat split; vm_compute; reflexivity. Qed.

(** ** The theorems at concrete inputs *)

Lemma updateReadme_splices_marked_region_witness :
  let pre := js "# Title" ++ nl ++ nl ++ js "Intro" ++ nl ++ nl in
  let body := nl ++ nl ++ js "> old text" ++ nl ++ nl in
  let tail := js "## License" ++ nl ++ nl ++ js "MIT" ++ nl in
  indexOf (pre ++ sectionMarker ++ body ++ tail) sectionMarker
  = Some (length pre)
  /\ indexOf (body ++ tail) (js "##") = Some (length body)
  /\ last body = Some 10
  /\ startsWith (js "## ") tail = true
  /\ updateReadme (Some (pre ++ sectionMarker ++ body ++ tail)) (js "NEW")
     = trim (pre ++ tail) ++ nl ++ nl ++ js "NEW".
Proof.
  cbv zeta.
  do 4 (split; [vm_compute; reflexivity|]).
  apply (proj1 (proj2 (proj2 updateReadme_splices_marked_region)));
    vm_compute; reflexivity.
Defined.

Lemma label_buckets_by_keyword_witness :
  issue42 ∈ [issue42; issue7; pull9]
  /\ pull_request issue42 = false
  /\ (issue42 ∈ bugs sample_categories
      <-> label_contains ascii_toLowerCase bug_keywords issue42).
Proof.
  split; [apply list_elem_of_here|]. split; [reflexivity|].
  apply (label_buckets_by_keyword ascii_toLowerCase
           [issue42; issue7; pull9] issue42);
    [apply list_elem_of_here|reflexivity].
Defined.

Lemma malformed_label_empty_and_unknown_witness :
  ascii_toLowerCase [] = []
  /\ malformed_label LabelOther = true
  /\ label_lower ascii_toLowerCase LabelOther = []
  /\ label_display LabelOther = js "unknown"
  /\ formatIssueForReadme
       (with_labels issue42 ([LabelString (js "bug")] ++ LabelOther :: []))
       true
     = js "- [#42](https://github.com/acme/widgets/issues/42) 🔓 **Crash on startup** `bug`, `unknown`".
Proof.
  split; [reflexivity|]. split; [reflexivity|].
  pose proof (malformed_label_empty_and_unknown ascii_toLowerCase LabelOther
                [LabelString (js "bug")] [] issue42 eq_refl eq_refl) as H.
  cbv zeta in H.
  destruct H as (Hlow & _ & _ & _ & _ & _ & _ & Hshown & _ & Hline & _).
  split; [exact Hlow|]. split; [exact Hshown|].
  etrans; [exact (Hline true)|]. vm_compute. reflexivity.
Defined.

Lemma fetch_stops_at_first_short_page_witness :
  (100 <= length (two_pages 1))%nat
  /\ (length (two_pages 2) < 100)%nat
  /\ fetchAllIssues two_page_tool (js "acme") (js "widgets") 5
     = (map (request (js "acme") (js "widgets")) (seq 1 2),
        Returned (concat (map two_pages (seq 1 2)))).
Proof.
  split; [vm_compute; lia|]. split; [vm_compute; lia|].
  apply (fetch_stops_at_first_short_page two_page_tool (js "acme")
           (js "widgets") two_pages 1 5).
  - intros p _. reflexivity.
  - intros p Hp. assert (p = 1%nat) as -> by lia. vm_compute. lia.
  - vm_compute. lia.
  - lia.
Defined.

Lemma recently_closed_last_30_days_witness :
  frozen (fun _ => june_1) june_1
  /\ take 10 (filter (closed_after_cutoff parse_timestamp utc_zone june_1)
                (closed sample_categories)) = [issue7]
  /\ sample_render june_1
     = blocks_before_recent (split_head 84 (utc_toISOString june_1))
         sample_categories (js "acme") (js "widgets")
       ++ recently_closed_block
            (take 10 (filter (closed_after_cutoff parse_timestamp utc_zone
                                june_1) (closed sample_categories)))
       ++ statistics_block sample_categories (utc_toISOString june_1).
Proof.
  split; [intros k; reflexivity|]. split; [vm_compute; reflexivity|].
  apply (recently_closed_last_30_days utc_toISOString parse_timestamp
           utc_zone sample_categories (js "acme") (js "widgets")
           (fun _ => june_1) june_1).
  intros k. reflexivity.
Defined.

(** * Further properties *)

(** ** Issue fetcher: every way the loop can go *)

Section FetcherEdges.

Variable callTool : list_issues_args -> tool_result.
Variables owner repo : jstring.

Abbreviation reqx := (request owner repo).
Abbreviation loopx := (fetch_loop callTool owner repo).

(** [full] full pages in a row take the loop [full] iterations further. *)
Lemma fetch_loop_full_pages (pages : nat -> list issue) (full : nat) :
  forall fuel allIssues page calls,
    (forall p, (page <= p < page + full)%nat ->
               callTool (reqx p) = IssuesText (pages p)
               /\ (perPage <= length (pages p))%nat) ->
    loopx (full + fuel) allIssues page calls
    = loopx fuel (allIssues ++ concat (map pages (seq page full)))
        (page + full) (calls ++ map reqx (seq page full)).
Proof.
  induction full as [|full IH]; intros fuel allIssues page calls Hfull.
  - cbn [seq map concat Nat.add]. by rewrite !app_nil_r, Nat.add_0_r.
  - destruct (Hfull page ltac:(lia)) as [Hcall Hlen]. unfold perPage in Hlen.
    cbn [Nat.add fetch_loop]. rewrite Hcall.
    rewrite (proj2 (Nat.eqb_neq _ _)) by lia.
    rewrite (proj2 (Nat.ltb_ge _ _)) by (unfold perPage; lia).
    rewrite IH by (intros p Hp; apply Hfull; lia).
    rewrite Nat.add_1_r. cbn [seq map concat].
    rewrite <- !app_assoc. cbn [app].
    by replace (S page + full)%nat with (page + S full)%nat by lia.
Qed.

Lemma fetch_loop_calls fuel : forall allIssues page calls,
  exists n, (n <= fuel)%nat
            /\ fst (loopx fuel allIssues page calls)
               = calls ++ map reqx (seq page n).
Proof.
  induction fuel as [|fuel IH]; intros allIssues page calls.
  - exists 0%nat. cbn. by rewrite app_nil_r.
  - cbn [fetch_loop].
    destruct (callTool (reqx page)) as [| |issues];
      try (exists 1%nat; split; [lia|reflexivity]).
    destruct (length issues =? 0)%nat;
      [exists 1%nat; split; [lia|reflexivity]|].
    destruct (length issues <? perPage)%nat;
      [exists 1%nat; split; [lia|reflexivity]|].
    destruct (IH (allIssues ++ issues) (page + 1)%nat (calls ++ [reqx page]))
      as (n & Hn & Hcalls).
    exists (S n). split; [lia|]. rewrite Hcalls, Nat.add_1_r.
    cbn [seq map]. by rewrite <- app_assoc.
Qed.

Lemma fetch_calls_pages (fuel : nat) :
  let calls := fst (fetchAllIssues callTool owner repo fuel) in
  (length calls <= fuel)%nat /\ calls = map reqx (seq 1 (length calls)).
Proof.
  cbv zeta. unfold fetchAllIssues.
  destruct (fetch_loop_calls fuel [] 1%nat []) as (n & Hn & ->).
  cbn [app]. by rewrite length_map, length_seq.
Qed.

(** X1. Whatever the issue source answers and however long the loop
    runs, the calls made so far are those for the pages 1, 2, ..., [n]
    in this order, one per iteration at most, each asking for both open
    and closed issues, sorted by update time, latest first, a hundred to
    the page. *)
Theorem fetch_asks_consecutive_pages (fuel : nat) :
  let calls := fst (fetchAllIssues callTool owner repo fuel) in
  (length calls <= fuel)%nat
  /\ map arg_page calls = seq 1 (length calls)
  /\ Forall (fun a => arg_owner a = owner /\ arg_repo a = repo
                      /\ arg_state a = js "all" /\ arg_sort a = js "updated"
                      /\ arg_direction a = js "desc"
                      /\ arg_perPage a = 100%nat) calls.
Proof.
  cbv zeta. destruct (fetch_calls_pages fuel) as [Hlen Hcalls].
  cbv zeta in Hlen, Hcalls.
  set (calls := fst (fetchAllIssues callTool owner repo fuel)) in *.
  split; [done|]. split.
  - rewrite Hcalls at 1. rewrite <- list_fmap_compose. apply list_fmap_id.
  - rewrite Hcalls. apply Forall_fmap, Forall_true. done.
Qed.

(** X2. A response without text after [full] full pages ends the loop:
    the result is what the full pages held. *)
Theorem fetch_stops_at_missing_text (pages : nat -> list issue)
  (full fuel : nat) :
  (forall p, (1 <= p <= full)%nat ->
             callTool (reqx p) = IssuesText (pages p)
             /\ (100 <= length (pages p))%nat) ->
  callTool (reqx (S full)) = NoText ->
  (full < fuel)%nat ->
  fetchAllIssues callTool owner repo fuel
  = (map reqx (seq 1 (S full)), Returned (concat (map pages (seq 1 full)))).
Proof.
  intros Hfull Hnone Hfuel. unfold fetchAllIssues.
  replace fuel with (full + S (fuel - S full))%nat by lia.
  rewrite (fetch_loop_full_pages pages full)
    by (intros p Hp; apply Hfull; lia).
  cbn [fetch_loop app]. replace (1 + full)%nat with (S full) by lia.
  rewrite Hnone. by rewrite seq_S, map_app.
Qed.

(** X3. A call that throws after [full] full pages makes the fetcher
    throw: the pages already fetched are not returned. *)
Theorem fetch_throws_when_a_call_throws (pages : nat -> list issue)
  (full fuel : nat) :
  (forall p, (1 <= p <= full)%nat ->
             callTool (reqx p) = IssuesText (pages p)
             /\ (100 <= length (pages p))%nat) ->
  callTool (reqx (S full)) = CallThrows ->
  (full < fuel)%nat ->
  fetchAllIssues callTool owner repo fuel
  = (map reqx (seq 1 (S full)), Thrown).
Proof.
  intros Hfull Hthrow Hfuel. unfold fetchAllIssues.
  replace fuel with (full + S (fuel - S full))%nat by lia.
  rewrite (fetch_loop_full_pages pages full)
    by (intros p Hp; apply Hfull; lia).
  cbn [fetch_loop app]. replace (1 + full)%nat with (S full) by lia.
  rewrite Hthrow. by rewrite seq_S, map_app.
Qed.

(** X4. Against a source whose every page holds at least a hundred
    items the loop has no end: after any number of iterations it is
    still running, having asked for one more page each time. *)
Theorem fetch_runs_on_while_pages_are_full (pages : nat -> list issue)
  (fuel : nat) :
  (forall p, (1 <= p)%nat ->
             callTool (reqx p) = IssuesText (pages p)
             /\ (100 <= length (pages p))%nat) ->
  fetchAllIssues callTool owner repo fuel
  = (map reqx (seq 1 fuel), OutOfFuel).
Proof.
  intros Hfull. unfold fetchAllIssues.
  replace fuel with (fuel + 0)%nat at 1 by lia.
  rewrite (fetch_loop_full_pages pages fuel)
    by (intros p Hp; apply Hfull; lia).
  reflexivity.
Qed.

End FetcherEdges.

(** ** Categorizer: composition, pull requests, counts *)

Section CategorizerMore.

Variable toLowerCase : jstring -> jstring.

Abbreviation categorizex := (categorizeIssues toLowerCase).

Lemma categories_eq (c1 c2 : categories) :
  open c1 = open c2 -> closed c1 = closed c2 -> bugs c1 = bugs c2 ->
  enhancements c1 = enhancements c2 -> documentation c1 = documentation c2 ->
  help_wanted c1 = help_wanted c2 ->
  good_first_issue c1 = good_first_issue c2 -> c1 = c2.
Proof. destruct c1, c2. cbn. congruence. Qed.

(** X5. Categorizing a list given in two parts gives, bucket by bucket,
    the entries of the first part followed by those of the second. *)
Theorem categorize_app (l1 l2 : list issue) :
  let c := categorizex (l1 ++ l2) in
  let c1 := categorizex l1 in
  let c2 := categorizex l2 in
  open c = open c1 ++ open c2
  /\ closed c = closed c1 ++ closed c2
  /\ bugs c = bugs c1 ++ bugs c2
  /\ enhancements c = enhancements c1 ++ enhancements c2
  /\ documentation c = documentation c1 ++ documentation c2
  /\ help_wanted c = help_wanted c1 ++ help_wanted c2
  /\ good_first_issue c = good_first_issue c1 ++ good_first_issue c2.
Proof.
  cbv zeta.
  rewrite !open_filter, !closed_filter, !bugs_filter, !enhancements_filter,
    !documentation_filter, !help_wanted_filter, !good_first_issue_filter.
  repeat split; apply filter_app.
Qed.

Lemma filter_not_pull_request (k : issue -> bool) (l : list issue) :
  filter (fun i => pull_request i = false /\ k i = true)
    (filter (fun i => pull_request i = false) l)
  = filter (fun i => pull_request i = false /\ k i = true) l.
Proof.
  induction l as [|i l IH]; [done|].
  rewrite !filter_cons. destruct (pull_request i) eqn:Hpr.
  - rewrite decide_False by done.
    rewrite decide_False by (intros [? _]; done). done.
  - rewrite decide_True by done. rewrite filter_cons.
    destruct (k i) eqn:Hk.
    + rewrite !decide_True by done. by rewrite IH.
    + rewrite !decide_False by (intros [_ ?]; done). done.
Qed.

(** X6. No bucket ever holds a pull request, and the pull requests of
    the input have no influence: the result is that for the input with
    its pull requests taken out. *)
Theorem categorize_ignores_pull_requests (issues : list issue) :
  let c := categorizex issues in
  (forall i, i ∈ open c ++ closed c ++ bugs c ++ enhancements c
               ++ documentation c ++ help_wanted c ++ good_first_issue c ->
             pull_request i = false)
  /\ categorizex (filter (fun i => pull_request i = false) issues) = c.
Proof.
  cbv zeta. split.
  - intros i. rewrite !elem_of_app.
    rewrite !open_filter, !closed_filter, !bugs_filter, !enhancements_filter,
      !documentation_filter, !help_wanted_filter, !good_first_issue_filter.
    rewrite !list_elem_of_filter. tauto.
  - apply categories_eq.
    all: rewrite ?open_filter, ?closed_filter, ?bugs_filter,
           ?enhancements_filter, ?documentation_filter, ?help_wanted_filter,
           ?good_first_issue_filter.
    all: apply filter_not_pull_request.
Qed.

Lemma open_closed_length (issues : list issue) :
  (length (open (categorizex issues)) + length (closed (categorizex issues))
   = length (filter (fun i => pull_request i = false) issues))%nat.
Proof.
  rewrite open_filter, closed_filter.
  induction issues as [|i issues IH]; [done|].
  rewrite !filter_cons.
  destruct (pull_request i) eqn:Hpr, (is_open i) eqn:Hop; cbn [negb].
  all: repeat (first [ rewrite decide_True by (try split; done)
                     | rewrite decide_False by (try intros [? ?]; done) ]).
  all: cbn [length]; lia.
Qed.

Lemma label_bucket_bound (k : issue -> bool) (issues : list issue) :
  (length (filter (fun i => pull_request i = false /\ k i = true) issues)
   <= length (filter (fun i => pull_request i = false) issues))%nat.
Proof.
  rewrite <- filter_not_pull_request. apply length_filter.
Qed.

(** X7. The counts of the statistics table are consistent: open and
    closed together count the inputs that are not pull requests, hence
    at most the input, and none of the five label buckets is larger
    than that total; every entry of a label bucket is also in the open
    or in the closed bucket. *)
Theorem bucket_counts_consistent (issues : list issue) :
  let c := categorizex issues in
  let total := (length (open c) + length (closed c))%nat in
  total = length (filter (fun i => pull_request i = false) issues)
  /\ (total <= length issues)%nat
  /\ (length (bugs c) <= total)%nat
  /\ (length (enhancements c) <= total)%nat
  /\ (length (documentation c) <= total)%nat
  /\ (length (help_wanted c) <= total)%nat
  /\ (length (good_first_issue c) <= total)%nat
  /\ (forall i, i ∈ bugs c ++ enhancements c ++ documentation c
                  ++ help_wanted c ++ good_first_issue c ->
                i ∈ open c \/ i ∈ closed c).
Proof.
  cbv zeta. rewrite open_closed_length.
  split; [done|]. split; [apply length_filter|].
  rewrite bugs_filter, enhancements_filter, documentation_filter,
    help_wanted_filter, good_first_issue_filter.
  do 5 (split; [apply label_bucket_bound|]).
  intros i. rewrite !elem_of_app, open_filter, closed_filter.
  rewrite !list_elem_of_filter.
  destruct (is_open i); cbn [negb]; intuition.
Qed.

Lemma categorize_only_pull_requests (issues : list issue) :
  Forall (fun i => pull_request i = true) issues ->
  categorizex issues = no_categories.
Proof.
  intros Hall. unfold categorizeIssues.
  induction Hall as [|i issues Hi _ IH]; [done|].
  cbn [fold_left]. unfold categorize_one at 2. by rewrite Hi.
Qed.

End CategorizerMore.

(** ** Facts about strings *)

Ltac literal := refine (bool_decide_unpack _ _); vm_compute; exact I.

Lemma free_of_app c s t : free_of c s -> free_of c t -> free_of c (s ++ t).
Proof. unfold free_of. apply Forall_app_2. Qed.

Lemma digits_free_of c d :
  ~ (48 <= c <= 57) -> free_of c (js (NilEmpty.string_of_uint d)).
Proof.
  intros Hc. unfold free_of.
  induction d; cbn [NilEmpty.string_of_uint]; [constructor|..].
  all: match goal with
       | |- Forall _ (js (String ?a ?s)) =>
           change (js (String a s)) with (N_of_ascii a :: js s)
       end.
  all: constructor; [cbn; lia|assumption].
Qed.

Lemma decimal_free_of c n : ~ (48 <= c <= 57) -> free_of c (decimal n).
Proof.
  intros Hc. unfold decimal, NilZero.string_of_uint.
  destruct (Nat.to_uint n); [|by apply digits_free_of..].
  constructor; [cbn; lia|constructor].
Qed.

Lemma decimalN_free_of c n : ~ (48 <= c <= 57) -> free_of c (decimalN n).
Proof.
  intros Hc. unfold decimalN, NilZero.string_of_uint.
  destruct (N.to_uint n); [|by apply digits_free_of..].
  constructor; [cbn; lia|constructor].
Qed.

Ltac free_parts :=
  repeat match goal with
         | |- free_of _ (js _) => literal
         | |- free_of _ nl => literal
         | |- free_of _ [] => constructor
         | |- free_of _ (_ ++ _) => apply free_of_app
         | |- free_of _ (decimal _) => apply decimal_free_of; lia
         | |- free_of _ (decimalN _) => apply decimalN_free_of; lia
         | H : free_of ?c ?s |- free_of ?c ?s => exact H
         end.

Lemma join_free_of c sep parts :
  free_of c sep -> Forall (free_of c) parts -> free_of c (join sep parts).
Proof.
  intros Hsep Hparts. induction Hparts as [|x rest Hx Hrest IH]; [constructor|].
  cbn [join]. destruct rest as [|y rest]; [done|].
  apply free_of_app; [done|]. by apply free_of_app.
Qed.

Lemma startsWith_app p rest : startsWith p (p ++ rest) = true.
Proof.
  induction p as [|a p IH]; [by destruct rest|].
  cbn [app startsWith]. by rewrite N.eqb_refl.
Qed.

Lemma startsWith_longer p s t :
  startsWith p s = true -> startsWith p (s ++ t) = true.
Proof.
  revert s. induction p as [|a p IH]; intros [|b s]; cbn; try done.
  intros [Hab Hps]%andb_prop. rewrite Hab. cbn. by apply IH.
Qed.

Lemma startsWith_past c p s t :
  free_of c p -> startsWith p s = false -> startsWith p (s ++ c :: t) = false.
Proof.
  revert s. induction p as [|a p IH]; intros s Hfree; [by destruct s|].
  apply Forall_cons in Hfree as [Hac Hfree].
  destruct s as [|b s]; cbn [app startsWith].
  - intros _. by rewrite (proj2 (N.eqb_neq a c)).
  - destruct (a =? b); cbn [andb]; [by apply IH|done].
Qed.

Lemma indexOf_None_inv c s p :
  indexOf (c :: s) p = None ->
  startsWith p (c :: s) = false /\ indexOf s p = None.
Proof.
  intros Hnone. destruct (indexOf_cons_inv c s p) as [Hstart Hidx].
  { by rewrite Hnone. }
  split; [done|]. rewrite Hidx in Hnone. by destruct (indexOf s p).
Qed.

Lemma indexOf_nil_None p : indexOf [] p = None -> p <> [].
Proof. by intros Hnone ->. Qed.

Lemma indexOf_None_suffix a b p : indexOf (a ++ b) p = None -> indexOf b p = None.
Proof.
  induction a as [|c a IH]; [done|]. cbn [app].
  intros [_ Hnone]%indexOf_None_inv. by apply IH.
Qed.

Lemma indexOf_None_prefix a b p : indexOf (a ++ b) p = None -> indexOf a p = None.
Proof.
  induction a as [|c a IH]; cbn [app]; intros Hnone.
  - destruct p as [|u p]; [by destruct b|done].
  - apply indexOf_None_inv in Hnone as [Hstart Hnone].
    rewrite indexOf_unfold.
    destruct (startsWith p (c :: a)) eqn:Hca.
    + pose proof (startsWith_longer p (c :: a) b Hca) as Hlong.
      cbn [app] in Hlong. by rewrite Hlong in Hstart.
    + by rewrite (IH Hnone).
Qed.

(** Past a text without [p] and a unit that [p] does not contain, the
    search for [p] starts afresh. *)
Lemma indexOf_past c p s t :
  free_of c p -> indexOf s p = None ->
  indexOf (s ++ c :: t) p = (fun k => length s + 1 + k)%nat <$> indexOf t p.
Proof.
  intros Hfree. induction s as [|b s IH]; intros Hnone.
  - assert (startsWith p (c :: t) = false) as Hstart.
    { apply (startsWith_past c p [] t Hfree).
      apply indexOf_nil_None in Hnone. by destruct p. }
    cbn [app length]. rewrite indexOf_unfold, Hstart.
    by destruct (indexOf t p).
  - apply indexOf_None_inv in Hnone as [Hstart Hnone].
    pose proof (startsWith_past c p (b :: s) t Hfree Hstart) as Hpast.
    cbn [app length] in *. rewrite indexOf_unfold, Hpast.
    rewrite (IH Hnone). by destruct (indexOf t p).
Qed.

(** The first occurrence of [u :: p] behind a text without [u]. *)
Lemma indexOf_behind_free u p s t :
  free_of u s -> startsWith (u :: p) t = true ->
  indexOf (s ++ t) (u :: p) = Some (length s).
Proof.
  intros Hfree Ht. induction Hfree as [|b s Hb _ IH].
  - cbn [app length]. by rewrite indexOf_unfold, Ht.
  - cbn [app length]. rewrite indexOf_unfold. cbn [startsWith].
    rewrite (proj2 (N.eqb_neq u b)) by done. cbn [andb]. by rewrite IH.
Qed.

Lemma trimStart_head s c rest :
  trimStart s = c :: rest -> isWhiteSpace c = false.
Proof.
  induction s as [|b s IH]; [done|]. cbn [trimStart].
  destruct (isWhiteSpace b) eqn:Hb; [done|]. by intros [= <- _].
Qed.

Lemma trimEnd_prefix s :
  exists trail, s = trimEnd s ++ trail
                /\ Forall (fun c => isWhiteSpace c = true) trail.
Proof.
  destruct (trimStart_frame (rev s)) as (lead & Hs & Hlead).
  exists (rev lead). split; [|by apply Forall_rev].
  unfold trimEnd. by rewrite <- rev_app_distr, <- Hs, rev_involutive.
Qed.

Lemma trimEnd_last s c rest :
  trimEnd s = rest ++ [c] -> isWhiteSpace c = false.
Proof.
  unfold trimEnd. intros Hs. apply (f_equal (@rev N)) in Hs.
  rewrite rev_involutive, rev_app_distr in Hs. cbn in Hs.
  by apply trimStart_head in Hs.
Qed.

Lemma trim_ends s :
  (forall c rest, trim s = c :: rest -> isWhiteSpace c = false)
  /\ (forall c rest, trim s = rest ++ [c] -> isWhiteSpace c = false).
Proof.
  unfold trim. split; [|apply trimEnd_last].
  intros c rest Hs.
  destruct (trimEnd_prefix (trimStart s)) as (trail & Hframe & _).
  rewrite Hs in Hframe. by apply trimStart_head in Hframe.
Qed.

(** A text that neither begins nor ends with white space is its own
    trim. *)
Lemma trim_fixed s :
  (forall c rest, s = c :: rest -> isWhiteSpace c = false) ->
  (forall c rest, s = rest ++ [c] -> isWhiteSpace c = false) ->
  trim s = s.
Proof.
  intros Hhead Hlast. unfold trim.
  assert (trimStart s = s) as ->.
  { destruct s as [|c rest]; [done|]. cbn [trimStart].
    by rewrite (Hhead c rest). }
  unfold trimEnd. destruct (rev s) as [|c rest] eqn:Hrev.
  - apply (f_equal (@rev N)) in Hrev. by rewrite rev_involutive in Hrev.
  - cbn [trimStart]. rewrite (Hlast c (rev rest)); [by rewrite <- Hrev, rev_involutive|].
    apply (f_equal (@rev N)) in Hrev. by rewrite rev_involutive in Hrev.
Qed.

(** ** Issue line, renderer and updater together *)

(** X8. An issue whose title, address, label texts and assignee login
    hold no line feed is rendered on a single line. *)
Theorem issue_line_is_one_line (i : issue) (includeState : bool) :
  free_of 10 (title i) -> free_of 10 (html_url i) ->
  Forall (fun l => free_of 10 (label_display l)) (labels_or_empty i) ->
  (forall login, assignee i = Some login -> free_of 10 login) ->
  free_of 10 (formatIssueForReadme i includeState).
Proof.
  intros Htitle Hurl Hlabels Hlogin. unfold formatIssueForReadme.
  cbv zeta. free_parts.
  - destruct includeState; free_parts. destruct (is_open i); free_parts.
  - destruct (0 <? length (labels_or_empty i))%nat; free_parts.
    apply join_free_of; [literal|]. by apply Forall_fmap.
  - destruct (assignee i) as [login|]; free_parts. by apply Hlogin.
Qed.

Section RendererMore.

Variable toISOString : Z -> jstring.
Variable Date_parse : jstring -> option Z.
Variable LocalTZA : Z -> bool -> Z.

Abbreviation generatex :=
  (generateIssuesSection toISOString Date_parse LocalTZA).

Lemma kept_recent_ext readings1 readings2 l : forall k,
  (forall j, (k <= j < k + length l)%nat -> readings1 j = readings2 j) ->
  kept_recent Date_parse LocalTZA readings1 k l
  = kept_recent Date_parse LocalTZA readings2 k l.
Proof.
  induction l as [|i l IH]; intros k Hsame; [done|].
  cbn [kept_recent length] in *. rewrite (Hsame k) by lia.
  rewrite (IH (S k)) by (intros j Hj; apply Hsame; lia). done.
Qed.

Lemma generate_reads c owner repo readings :
  snd (generatex c owner repo readings 0%nat) = (2 + length (closed c))%nat.
Proof.
  unfold generateIssuesSection.
  cbv beta iota zeta delta [bind newDate ret].
  rewrite filter_clocked_run. reflexivity.
Qed.

(** X9. Rendering reads the clock once for the date, once per closed
    issue and once for the timestamp, and the text depends on the clock
    through these reads only: two clocks that agree on them give the
    same text. *)
Theorem render_depends_on_its_clock_reads (c : categories)
  (owner repo : jstring) (readings1 readings2 : nat -> Z) :
  (forall k, (k < 2 + length (closed c))%nat -> readings1 k = readings2 k) ->
  snd (generatex c owner repo readings1 0%nat) = (2 + length (closed c))%nat
  /\ run_clock (generatex c owner repo) readings1
     = run_clock (generatex c owner repo) readings2.
Proof.
  intros Hsame. split; [apply generate_reads|].
  rewrite !generate_layout.
  rewrite (kept_recent_ext readings1 readings2)
    by (intros j Hj; apply Hsame; lia).
  by rewrite (Hsame 0%nat), (Hsame (S (length (closed c)))) by lia.
Qed.

Lemma render_no_categories owner repo readings :
  run_clock (generatex no_categories owner repo) readings
  = header_block (split_head 84 (toISOString (readings 0%nat)))
      no_categories owner repo
    ++ statistics_block no_categories (toISOString (readings 1%nat)).
Proof. rewrite generate_layout. reflexivity. Qed.

(** X10. When every fetched item is a pull request the buckets are all
    empty and the rendered section is the header followed by the
    statistics table, with every count zero and no subsection. *)
Theorem only_pull_requests_render_no_subsection
  (toLowerCase : jstring -> jstring) (issues : list issue)
  (owner repo : jstring) (readings : nat -> Z) :
  Forall (fun i => pull_request i = true) issues ->
  categorizeIssues toLowerCase issues = no_categories
  /\ run_clock (generatex (categorizeIssues toLowerCase issues) owner repo)
       readings
     = header_block (split_head 84 (toISOString (readings 0%nat)))
         no_categories owner repo
       ++ statistics_block no_categories (toISOString (readings 1%nat)).
Proof.
  intros Hall. rewrite (categorize_only_pull_requests toLowerCase issues Hall).
  split; [done|]. apply render_no_categories.
Qed.

Lemma header_block_marker date c owner repo :
  header_block date c owner repo
  = sectionMarker ++ header_after_marker date c owner repo.
Proof.
  unfold header_block, header_before_date, header_after_marker, sectionMarker.
  by rewrite <- !app_assoc.
Qed.

Lemma header_after_marker_free date c owner repo :
  free_of 35 owner -> free_of 35 repo -> free_of 35 date ->
  free_of 35 (header_after_marker date c owner repo).
Proof.
  intros Howner Hrepo Hdate. unfold header_after_marker, header_after_date.
  free_parts.
Qed.

Lemma icon_block_hashes heading total shown rest :
  startsWith (js "##") heading = true -> startsWith (js "##") rest = true ->
  startsWith (js "##") (icon_block heading total shown ++ rest) = true.
Proof.
  intros Hheading Hrest. unfold icon_block. destruct total; [done|].
  by do 2 apply startsWith_longer.
Qed.

Lemma statistics_block_hashes c stamp :
  startsWith (js "##") (statistics_block c stamp) = true.
Proof.
  unfold statistics_block, statistics_before_stamp.
  rewrite <- !app_assoc. apply startsWith_longer. vm_compute. reflexivity.
Qed.

Lemma open_block_hashes owner repo opens rest :
  startsWith (js "##") rest = true ->
  startsWith (js "##") (open_block owner repo opens ++ rest) = true.
Proof.
  intros Hrest. unfold open_block. cbv zeta.
  destruct (length opens); [exact Hrest|].
  do 2 apply startsWith_longer. vm_compute. reflexivity.
Qed.

Lemma blocks_after_header_hashes c owner repo readings :
  startsWith (js "##")
    (blocks_after_header toISOString Date_parse LocalTZA c owner repo
         readings) = true.
Proof.
  unfold blocks_after_header, blocks_after_open, bugs_block,
    enhancements_block, help_wanted_block, good_first_issue_block,
    recently_closed_block.
  apply open_block_hashes.
  do 5 (apply icon_block_hashes; [vm_compute; reflexivity|]).
  apply statistics_block_hashes.
Qed.

Lemma generate_marker_header_blocks c owner repo readings :
  run_clock (generatex c owner repo) readings
  = sectionMarker
    ++ header_after_marker (split_head 84 (toISOString (readings 0%nat)))
         c owner repo
    ++ blocks_after_header toISOString Date_parse LocalTZA c owner repo
         readings.
Proof.
  rewrite generate_layout, header_block_marker.
  unfold blocks_after_header, blocks_after_open. by rewrite <- !app_assoc.
Qed.

(** X11. A second run does not remove the section of the first: on a
    document without marker, updated with a rendered section and then
    updated again, the match of the second run ends at the first [###]
    sub-heading of the old section, so only the old header lines go and
    all the old subsections and the old statistics table stay in front
    of the new fragment. *)
Theorem rerun_keeps_previous_subsections (doc fragment2 : jstring)
  (c : categories) (owner repo : jstring) (readings : nat -> Z) :
  indexOf doc sectionMarker = None ->
  free_of 35 owner -> free_of 35 repo ->
  free_of 35 (split_head 84 (toISOString (readings 0%nat))) ->
  let fragment1 := run_clock (generatex c owner repo) readings in
  updateReadme (Some (updateReadme (Some doc) fragment1)) fragment2
  = trim (trim doc ++ nl ++ nl
          ++ blocks_after_header toISOString Date_parse LocalTZA c owner repo
         readings)
    ++ nl ++ nl ++ fragment2.
Proof.
  intros Hdoc Howner Hrepo Hdate fragment1. subst fragment1.
  unfold updateReadme at 2. rewrite (replace_without_marker doc Hdoc).
  rewrite generate_marker_header_blocks.
  set (header := header_after_marker _ c owner repo).
  set (blocks := blocks_after_header _ _ _ c owner repo readings).
  assert (indexOf (trim doc) sectionMarker = None) as Htrim.
  { destruct (trim_frame doc) as (lead & trail & Hframe & _).
    rewrite Hframe in Hdoc.
    by apply indexOf_None_suffix, indexOf_None_prefix in Hdoc. }
  assert (indexOf ((trim doc ++ nl ++ nl) ++ sectionMarker ++ header ++ blocks)
            sectionMarker = Some (length (trim doc ++ nl ++ nl))) as Hfirst.
  { rewrite <- !app_assoc. unfold nl at 1 2. cbn [app].
    rewrite (indexOf_past 10 sectionMarker (trim doc)) by (literal || done).
    pose proof (indexOf_past 10 sectionMarker []
                  (sectionMarker ++ header ++ blocks)) as Hsecond.
    cbn [app length] in Hsecond. rewrite Hsecond by (literal || done).
    rewrite indexOf_unfold, startsWith_app. cbn [fmap option_fmap option_map].
    rewrite !length_app. unfold nl. cbn [length]. f_equal. lia. }
  unfold updateReadme.
  replace (trim doc ++ nl ++ nl ++ sectionMarker ++ header ++ blocks)
    with ((trim doc ++ nl ++ nl) ++ sectionMarker ++ header ++ blocks)
    by (by rewrite <- !app_assoc).
  rewrite (replace_at_marker _ _ Hfirst).
  rewrite (skip_to_hashes header blocks).
  - by rewrite <- !app_assoc.
  - apply (indexOf_behind_free 35 [35]).
    + by apply header_after_marker_free.
    + apply blocks_after_header_hashes.
Qed.

End RendererMore.

(** X12. The text written back is always some body, an empty line and
    the fragment, where the body neither begins nor ends with white
    space, whether README.md exists or not. *)
Theorem updateReadme_shape (readme : option jstring) (fragment : jstring) :
  exists body,
    updateReadme readme fragment = body ++ nl ++ nl ++ fragment
    /\ (forall c rest, body = c :: rest -> isWhiteSpace c = false)
    /\ (forall c rest, body = rest ++ [c] -> isWhiteSpace c = false).
Proof.
  unfold updateReadme. eexists. split; [reflexivity|]. apply trim_ends.
Qed.

(** ** The pipeline *)

Lemma split_free sep s : free_of sep s -> split sep s = [s].
Proof.
  intros Hfree. induction Hfree as [|c s Hc _ IH]; [done|].
  cbn [split]. rewrite (proj2 (N.eqb_neq c sep)) by done. by rewrite IH.
Qed.

Lemma split_at_first sep s t :
  free_of sep s -> split sep (s ++ sep :: t) = s :: split sep t.
Proof.
  intros Hfree. induction Hfree as [|c s Hc _ IH]; cbn [app split].
  - by rewrite N.eqb_refl.
  - rewrite (proj2 (N.eqb_neq c sep)) by done. by rewrite IH.
Qed.

Lemma or_undefined_truthy a b : falsy a = false -> or_undefined a b = a.
Proof. by destruct a as [[|c s]|]. Qed.

Lemma or_undefined_falsy a b : falsy a = true -> or_undefined a b = b.
Proof. by destruct a as [[|c s]|]. Qed.

(** X13. The repository identifiers: a non-empty REPO_OWNER or
    REPO_NAME is taken as it is; when both are unset or empty and
    GITHUB_REPOSITORY reads [owner/name], the two parts are taken from
    it; and a GITHUB_REPOSITORY without a slash leaves the name
    unresolved. *)
Theorem repository_identifiers (env : environment) :
  (falsy (REPO_OWNER env) = false -> repoOwner env = REPO_OWNER env)
  /\ (falsy (REPO_NAME env) = false -> repoName env = REPO_NAME env)
  /\ (forall owner name,
        falsy (REPO_OWNER env) = true -> falsy (REPO_NAME env) = true ->
        GITHUB_REPOSITORY env = Some (owner ++ js "/" ++ name) ->
        free_of 47 owner -> free_of 47 name ->
        repoOwner env = Some owner /\ repoName env = Some name)
  /\ (forall s,
        falsy (REPO_NAME env) = true ->
        GITHUB_REPOSITORY env = Some s -> free_of 47 s ->
        falsy (repoName env) = true).
Proof.
  unfold repoOwner, repoName, repository_part.
  split; [apply or_undefined_truthy|]. split; [apply or_undefined_truthy|].
  split.
  - intros owner name Ho Hn Hrepo Howner Hname.
    rewrite !or_undefined_falsy, Hrepo by done.
    change (js "/" ++ name) with (47 :: name).
    by rewrite split_at_first, (split_free 47 name).
  - intros s Hn Hrepo Hs.
    rewrite or_undefined_falsy, Hrepo, (split_free 47 s) by done. done.
Qed.

Section PipelineFacts.

Variable toLowerCase : jstring -> jstring.
Variable toISOString : Z -> jstring.
Variable Date_parse : jstring -> option Z.
Variable LocalTZA : Z -> bool -> Z.
Variable callTool : list_issues_args -> tool_result.
Variables connects write_succeeds : bool.

Abbreviation run_main :=
  (main toLowerCase toISOString Date_parse LocalTZA callTool connects
     write_succeeds).

(** X14. A missing or empty token, owner or name ends the run with exit
    code 1 before anything is done: no connection, no call, no write. *)
Theorem main_rejects_bad_configuration (env : environment)
  (readme : option jstring) (readings : nat -> Z) (fuel : nat) :
  falsy (GITHUB_TOKEN env) = true \/ falsy (repoOwner env) = true
  \/ falsy (repoName env) = true ->
  run_main env readme readings fuel
  = Some {| exit_code := 1; events := []; written := None |}.
Proof.
  intros Hbad. unfold main.
  destruct (falsy (GITHUB_TOKEN env)); [done|].
  destruct Hbad as [?|[-> | ->]]; [done|done|].
  by rewrite orb_true_r.
Qed.

(** X16. The order of events: nothing at all, or the connection first,
    then only calls for the pages 1, 2, ... in order, then at most one
    disconnection, at the end. *)
Theorem main_event_order (env : environment) (readme : option jstring)
  (readings : nat -> Z) (fuel : nat) (r : main_result) :
  run_main env readme readings fuel = Some r ->
  events r = []
  \/ exists calls closing,
       events r = Connect :: map ToolCall calls ++ closing
       /\ map arg_page calls = seq 1 (length calls)
       /\ (closing = [] \/ closing = [Disconnect]).
Proof.
  unfold main.
  destruct (falsy (GITHUB_TOKEN env)); [intros [= <-]; by left|].
  destruct (falsy (repoOwner env) || falsy (repoName env));
    [intros [= <-]; by left|].
  destruct (repoOwner env) as [owner|]; [|intros [= <-]; by left].
  destruct (repoName env) as [repo|]; [|intros [= <-]; by left].
  destruct connects; cbn [negb];
    [|intros [= <-]; right; exists [], []; cbn; auto].
  assert (let calls := fst (fetchAllIssues callTool owner repo fuel) in
          map arg_page calls = seq 1 (length calls)) as Hpages.
  { destruct (fetch_calls_pages callTool owner repo fuel) as [_ Hcalls].
    cbv zeta in *. rewrite Hcalls at 1. rewrite <- list_fmap_compose.
    apply list_fmap_id. }
  cbv zeta in Hpages.
  destruct (fetchAllIssues callTool owner repo fuel) as [calls [issues| |]];
    [| |done]; cbn [fst] in Hpages.
  - destruct (length issues =? 0)%nat.
    + intros [= <-]. right. exists calls, [Disconnect]. cbn. auto.
    + destruct write_succeeds; intros [= <-]; right.
      * exists calls, [Disconnect]. cbn. auto.
      * exists calls, []. cbn. rewrite app_nil_r. auto.
  - intros [= <-]. right. exists calls, []. cbn. rewrite app_nil_r. auto.
Qed.

(** X17. When the first page comes back empty or without text the run
    ends with exit code 0 after that one call and leaves README.md as it
    is. *)
Theorem main_without_issues_leaves_readme (env : environment)
  (owner repo : jstring) (readme : option jstring) (readings : nat -> Z)
  (fuel : nat) :
  falsy (GITHUB_TOKEN env) = false ->
  repoOwner env = Some owner -> repoName env = Some repo ->
  owner <> [] -> repo <> [] -> connects = true ->
  callTool (request owner repo 1) = IssuesText []
  \/ callTool (request owner repo 1) = NoText ->
  run_main env readme readings (S fuel)
  = Some {| exit_code := 0;
            events := [Connect; ToolCall (request owner repo 1); Disconnect];
            written := None |}.
Proof.
  intros Htoken Howner Hrepo Ho Hr Hconnects Hfirst. unfold main.
  rewrite Htoken, Howner, Hrepo, Hconnects.
  destruct owner as [|o owner]; [done|]. destruct repo as [|n repo]; [done|].
  cbn [falsy orb negb]. unfold fetchAllIssues. cbn [fetch_loop].
  by destruct Hfirst as [-> | ->].
Qed.

(** X18. The test for an empty repository counts pull requests: when
    the fetched items are all pull requests, and there is at least one,
    the run does not stop early but writes a section without
    subsection and with every count zero. *)
Theorem main_with_only_pull_requests (env : environment)
  (owner repo : jstring) (readme : option jstring) (readings : nat -> Z)
  (fuel : nat) (calls : list list_issues_args) (issues : list issue) :
  falsy (GITHUB_TOKEN env) = false ->
  repoOwner env = Some owner -> repoName env = Some repo ->
  owner <> [] -> repo <> [] -> connects = true -> write_succeeds = true ->
  fetchAllIssues callTool owner repo fuel = (calls, Returned issues) ->
  issues <> [] -> Forall (fun i => pull_request i = true) issues ->
  run_main env readme readings fuel
  = Some {| exit_code := 0;
            events := Connect :: map ToolCall calls ++ [Disconnect];
            written :=
              Some (updateReadme readme
                      (header_block
                         (split_head 84 (toISOString (readings 0%nat)))
                         no_categories owner repo
                       ++ statistics_block no_categories
                            (toISOString (readings 1%nat)))) |}.
Proof.
  intros Htoken Howner Hrepo Ho Hr Hconnects Hwrite Hfetch Hsome Hall.
  unfold main. rewrite Htoken, Howner, Hrepo, Hconnects, Hwrite, Hfetch.
  destruct owner as [|o owner]; [done|]. destruct repo as [|n repo]; [done|].
  cbn [falsy orb negb]. destruct issues as [|i issues]; [done|].
  cbn [length Nat.eqb].
  rewrite (categorize_only_pull_requests toLowerCase (i :: issues) Hall).
  by rewrite render_no_categories.
Qed.

End PipelineFacts.

(** ** Changed files of the review scripts *)

Lemma split_pieces_free sep s : Forall (free_of sep) (split sep s).
Proof.
  induction s as [|c s IH]; cbn [split]; [by repeat constructor|].
  destruct (N.eqb_spec c sep) as [->|Hc].
  - constructor; [constructor|done].
  - destruct (split sep s) as [|piece pieces]; [by repeat constructor|].
    apply Forall_cons in IH as [Hpiece Hpieces].
    constructor; [by constructor|done].
Qed.

Lemma filter_nonempty_Forall (P : jstring -> Prop) (l : list jstring) :
  Forall P l ->
  Forall (fun f => f <> [] /\ P f)
    (List.filter (fun f => negb (bool_decide (f = []))) l).
Proof.
  intros Hall. induction Hall as [|f l Hf _ IH]; [constructor|].
  cbn [List.filter]. destruct (decide (f = [])) as [->|Hne].
  - by rewrite bool_decide_eq_true_2.
  - rewrite bool_decide_eq_false_2 by done. cbn [negb]. by constructor.
Qed.

Lemma filter_nonempty_id (l : list jstring) :
  Forall (fun f => f <> []) l ->
  List.filter (fun f => negb (bool_decide (f = []))) l = l.
Proof.
  intros Hall. induction Hall as [|f l Hf _ IH]; [done|].
  cbn [List.filter]. rewrite bool_decide_eq_false_2 by done. cbn [negb].
  by rewrite IH.
Qed.

(** X19. Every changed file read off the output of git is a non-empty
    name without line feed, and an output of white space only gives no
    file at all. *)
Theorem changedFiles_entries (stdout : jstring) :
  Forall (fun f => f <> [] /\ free_of 10 f) (changedFiles stdout)
  /\ (Forall (fun c => isWhiteSpace c = true) stdout ->
      changedFiles stdout = []).
Proof.
  unfold changedFiles. split.
  - apply filter_nonempty_Forall, split_pieces_free.
  - intros Hblank. assert (trimStart stdout = []) as Hstart.
    { induction Hblank as [|c s Hc _ IH]; [done|]. cbn [trimStart].
      by rewrite Hc. }
    unfold trim. by rewrite Hstart.
Qed.

Lemma split_join (names : list jstring) :
  names <> [] -> Forall (free_of 10) names ->
  split 10 (join nl names) = names.
Proof.
  intros Hne Hall. induction Hall as [|f rest Hf Hrest IH]; [done|].
  cbn [join]. destruct rest as [|g rest]; [by apply split_free|].
  unfold nl at 1. cbn [app]. rewrite split_at_first by done.
  by rewrite IH.
Qed.

Lemma lines_join (names : list jstring) :
  names <> [] ->
  concat (map (fun f => f ++ nl) names) = join nl names ++ nl.
Proof.
  intros Hne. induction names as [|f rest IH]; [done|].
  cbn [map concat join]. destruct rest as [|g rest].
  - cbn. by rewrite app_nil_r.
  - rewrite IH by done. by rewrite <- !app_assoc.
Qed.

Lemma join_last sep (names : list jstring) (f : jstring) :
  exists before, join sep (names ++ [f]) = before ++ f.
Proof.
  induction names as [|g names (before & IH)]; [by exists []|].
  cbn [app]. destruct names as [|h names].
  - exists (g ++ sep). cbn. by rewrite <- app_assoc.
  - exists (g ++ sep ++ before).
    change (join sep (g :: (h :: names) ++ [f]))
      with (g ++ sep ++ join sep ((h :: names) ++ [f])).
    rewrite IH. by rewrite <- !app_assoc.
Qed.

Lemma trim_line (s : jstring) :
  (forall c rest, s = c :: rest -> isWhiteSpace c = false) ->
  (forall c rest, s = rest ++ [c] -> isWhiteSpace c = false) ->
  trim (s ++ nl) = s.
Proof.
  intros Hhead Hlast. rewrite <- (trim_fixed s Hhead Hlast) at 2.
  unfold trim. destruct s as [|c rest]; [done|].
  cbn [app trimStart]. rewrite (Hhead c rest) by done.
  unfold trimEnd. change (c :: rest ++ nl) with ((c :: rest) ++ nl).
  rewrite rev_app_distr. reflexivity.
Qed.

(** X20. Round trip: from an output of git that lists plain names, one
    to the line, the scripts read back exactly these names, in order. *)
Theorem changedFiles_round_trip (names : list jstring) :
  Forall plain_name names ->
  changedFiles (concat (map (fun f => f ++ nl) names)) = names.
Proof.
  intros Hall. destruct (decide (names = [])) as [->|Hne]; [done|].
  rewrite lines_join by done. unfold changedFiles.
  rewrite trim_line.
  - rewrite split_join; [|done|].
    + apply filter_nonempty_id. eapply Forall_impl; [exact Hall|].
      by intros f (? & _).
    + eapply Forall_impl; [exact Hall|]. by intros f (_ & ? & _).
  - intros c rest Hjoin. destruct names as [|f others]; [done|].
    apply Forall_cons in Hall as [(Hf & _ & Hhead & _) _].
    destruct f as [|c' f']; [done|].
    assert (c = c') as ->; [|by apply (Hhead c' f')].
    destruct others; cbn in Hjoin; congruence.
  - intros c rest Hjoin.
    destruct (List.exists_last Hne) as [others [f ->]].
    apply Forall_app in Hall as [_ Hf].
    apply Forall_cons in Hf as [(Hf & _ & _ & Hlast) _].
    destruct (join_last nl others f) as (before & Hbefore).
    rewrite Hbefore in Hjoin.
    destruct (List.exists_last Hf) as [f' [c' ->]].
    rewrite app_assoc in Hjoin. apply app_inj_tail in Hjoin as [_ ->].
    by apply (Hlast c f').
Qed.

(** ** Complexity metric *)

Lemma strip_prefix_Some p s rest : strip_prefix p s = Some rest -> s = p ++ rest.
Proof.
  revert s. induction p as [|a p IH]; intros [|b s]; cbn; try congruence.
  destruct (N.eqb_spec a b) as [->|]; [|done].
  intros Hs. by rewrite (IH s Hs).
Qed.

Lemma strip_word_before_separator p sep x b :
  Forall (fun u => is_word u = true) p -> is_word sep = false ->
  strip_prefix p (x ++ sep :: b)
  = (fun rest => rest ++ sep :: b) <$> strip_prefix p x.
Proof.
  intros Hp Hsep. revert x.
  induction Hp as [|k p Hk _ IH]; intros x; [by destruct x|].
  destruct x as [|c x]; cbn [app strip_prefix].
  - destruct (N.eqb_spec k sep) as [->|]; [congruence|done].
  - destruct (k =? c); [apply IH|done].
Qed.

Section KeywordCount.

Variable keyword : jstring.
Hypothesis keyword_word : Forall (fun u => is_word u = true) keyword.
Hypothesis keyword_nonempty : keyword <> [].

Lemma last_keyword_word : exists u, last keyword = Some u /\ is_word u = true.
Proof.
  destruct (List.exists_last keyword_nonempty) as [front [u Hk]].
  exists u. split; [by rewrite Hk, last_snoc|].
  rewrite Hk in keyword_word. apply Forall_app in keyword_word as [_ Hu].
  by apply Forall_cons in Hu as [Hu _].
Qed.

Lemma keyword_matches_before_separator sep before x b :
  is_word sep = false ->
  keyword_matches keyword before (x ++ sep :: b)
  = keyword_matches keyword before x.
Proof.
  intros Hsep. unfold keyword_matches.
  rewrite (strip_word_before_separator keyword sep x b keyword_word Hsep).
  destruct (strip_prefix keyword x) as [rest|] eqn:Hstrip; cbn.
  - destruct x as [|c x].
    + destruct keyword; [done|discriminate].
    + f_equal. destruct rest; [|done]. unfold boundary. cbn. by rewrite Hsep.
  - by rewrite !andb_false_r.
Qed.

Lemma count_matches_before skip before1 before2 s :
  word_at before1 = word_at before2 ->
  count_matches keyword skip before1 s = count_matches keyword skip before2 s.
Proof.
  intros Hsame.
  assert (forall t, keyword_matches keyword before1 t
                    = keyword_matches keyword before2 t) as Htest.
  { intros t. unfold keyword_matches, boundary. rewrite Hsame.
    destruct last_keyword_word as (u & -> & _). done. }
  destruct s as [|c s]; cbn [count_matches]; [by rewrite Htest|].
  destruct skip; [|done]. by rewrite Htest.
Qed.

Lemma count_matches_app sep a b :
  is_word sep = false ->
  forall skip before, (skip <= length a)%nat ->
    count_matches keyword skip before (a ++ sep :: b)
    = (count_matches keyword skip before a
       + count_matches keyword 0 None b)%nat.
Proof.
  intros Hsep. induction a as [|c a IH]; intros skip before Hskip.
  - assert (skip = 0%nat) as -> by (cbn in Hskip; lia).
    pose proof (keyword_matches_before_separator sep before [] b Hsep) as Hm.
    cbn [app] in Hm. cbn [app count_matches]. rewrite Hm.
    assert (keyword_matches keyword before [] = false) as ->.
    { unfold keyword_matches. destruct keyword; [done|].
      by rewrite andb_false_r. }
    apply count_matches_before. cbn. by rewrite Hsep.
  - cbn [length] in Hskip. cbn [app count_matches].
    destruct skip as [|skip]; [|apply IH; lia].
    pose proof (keyword_matches_before_separator sep before (c :: a) b Hsep)
      as Hm.
    cbn [app] in Hm. rewrite Hm.
    destruct (keyword_matches keyword before (c :: a)) eqn:Htest.
    + rewrite IH; [done|]. unfold keyword_matches in Htest.
      destruct (strip_prefix keyword (c :: a)) as [rest|] eqn:Hstrip;
        [|by rewrite andb_false_r in Htest].
      apply strip_prefix_Some, (f_equal length) in Hstrip.
      rewrite length_app in Hstrip. cbn [length] in Hstrip. lia.
    + apply IH. lia.
Qed.

Lemma count_matches_inside_word skip w s :
  is_word w = true -> Forall (fun u => is_word u = true) s ->
  count_matches keyword skip (Some w) s = 0%nat.
Proof.
  intros Hw Hs. revert skip w Hw.
  induction Hs as [|c s Hc _ IH]; intros skip w Hw; cbn [count_matches].
  - unfold keyword_matches. destruct keyword; [done|].
    by rewrite andb_false_r.
  - destruct skip; [|by apply IH].
    unfold keyword_matches, boundary. cbn [head word_at]. rewrite Hw, Hc.
    cbn. by apply IH.
Qed.

Lemma count_matches_word s :
  Forall (fun u => is_word u = true) s ->
  count_matches keyword 0 None s = if decide (s = keyword) then 1%nat else 0%nat.
Proof.
  intros Hs. destruct s as [|c s].
  - rewrite decide_False by done. cbn [count_matches].
    unfold keyword_matches. destruct keyword; [done|]. by rewrite andb_false_r.
  - apply Forall_cons in Hs as [Hc Hs]. cbn [count_matches].
    unfold keyword_matches, boundary.
    destruct last_keyword_word as (u & -> & Hu).
    cbn [head word_at]. rewrite Hc, Hu. cbn [xorb andb].
    destruct (strip_prefix keyword (c :: s)) as [rest|] eqn:Hstrip.
    + apply strip_prefix_Some in Hstrip.
      destruct rest as [|r rest]; cbn [head word_at xorb].
      * rewrite app_nil_r in Hstrip. rewrite decide_True by done.
        by rewrite count_matches_inside_word.
      * assert (is_word r = true) as ->.
        { assert (Forall (fun u => is_word u = true) (c :: s)) as Hall
            by by constructor.
          rewrite Hstrip in Hall. apply Forall_app in Hall as [_ Hall].
          by apply Forall_cons in Hall as [? _]. }
        cbn. rewrite count_matches_inside_word by done.
        rewrite decide_False; [done|]. intros Heq.
        rewrite Heq in Hstrip. apply (f_equal length) in Hstrip.
        rewrite length_app in Hstrip. cbn in Hstrip. lia.
    + rewrite count_matches_inside_word by done.
      rewrite decide_False; [done|]. intros Heq.
      pose proof (strip_prefix_app keyword []) as Hself.
      rewrite app_nil_r in Hself. congruence.
Qed.

End KeywordCount.

Lemma complexity_keywords_are_words :
  Forall (fun k => Forall (fun u => is_word u = true) k /\ k <> [])
    complexity_keywords.
Proof. refine (bool_decide_unpack _ _). vm_compute. exact I. Qed.

Ltac keyword_fact k :=
  let H := fresh in
  pose proof complexity_keywords_are_words as H;
  unfold complexity_keywords in H;
  repeat (apply Forall_cons in H as [? H]);
  match goal with
  | Hk : Forall _ k /\ k <> [] |- _ => exact (proj1 Hk) || exact (proj2 Hk)
  end.

(** X21. The metric adds up over pieces: for two texts joined by a unit
    that is no word unit (a line feed, a blank, a bracket), the
    complexity of the whole is the sum of the complexities of the parts
    less one. *)
Theorem complexity_adds_over_separators (sep : N) (a b : jstring) :
  is_word sep = false ->
  (calculateComplexity (a ++ sep :: b) + 1
   = calculateComplexity a + calculateComplexity b)%nat.
Proof.
  intros Hsep. unfold calculateComplexity, complexity_keywords.
  cbn [fold_left].
  repeat match goal with
         | |- context [count_matches ?k 0 None (a ++ sep :: b)] =>
             rewrite (count_matches_app k ltac:(keyword_fact k)
                        ltac:(keyword_fact k) sep a b Hsep 0%nat None)
               by lia
         end.
  lia.
Qed.

(** X22. A keyword counts as a whole word only: a text made of word
    units alone (letters, digits, underscores) has complexity 1, unless
    it is one of the eight keywords, which has complexity 2. *)
Theorem complexity_of_a_single_word (s : jstring) :
  Forall (fun u => is_word u = true) s ->
  calculateComplexity s
  = if decide (s ∈ complexity_keywords) then 2%nat else 1%nat.
Proof.
  intros Hs. unfold calculateComplexity.
  unfold complexity_keywords at 1. cbn [fold_left].
  repeat match goal with
         | |- context [count_matches ?k 0 None s] =>
             rewrite (count_matches_word k ltac:(keyword_fact k)
                        ltac:(keyword_fact k) s Hs)
         end.
  repeat match goal with
         | |- context [decide (s = ?k)] =>
             destruct (decide (s = k)) as [->|?]
         end.
  all: try (vm_compute; reflexivity).
  rewrite decide_False; [done|].
  unfold complexity_keywords. rewrite !elem_of_cons, elem_of_nil. tauto.
Qed.

(** ** The further properties at concrete inputs *)

Lemma plain_nameb_sound f : plain_nameb f = true -> plain_name f.
Proof.
  unfold plain_nameb, plain_name.
  intros [[Hne Hfree]%andb_prop Hends]%andb_prop.
  apply negb_true_iff, bool_decide_eq_false in Hne.
  apply bool_decide_eq_true in Hfree.
  destruct (head f) as [c|] eqn:Hhead; [|done].
  destruct (last f) as [d|] eqn:Hlast; [|done].
  apply andb_prop in Hends as [Hc%negb_true_iff Hd%negb_true_iff].
  repeat split; try done.
  - intros c' rest ->. cbn in Hhead. congruence.
  - intros d' rest ->. rewrite last_snoc in Hlast. congruence.
Qed.

Lemma fetch_stops_at_missing_text_witness :
  textless_tool (request (js "acme") (js "widgets") 2) = NoText
  /\ fetchAllIssues textless_tool (js "acme") (js "widgets") 5
     = (map (request (js "acme") (js "widgets")) (seq 1 2),
        Returned (concat (map (fun _ => full_page) (seq 1 1)))).
Proof.
  split; [reflexivity|].
  apply (fetch_stops_at_missing_text textless_tool (js "acme") (js "widgets")
           (fun _ => full_page) 1 5).
  - intros p Hp. assert (p = 1%nat) as -> by lia.
    split; [reflexivity|vm_compute; lia].
  - reflexivity.
  - lia.
Defined.

Lemma fetch_throws_when_a_call_throws_witness :
  throwing_tool (request (js "acme") (js "widgets") 2) = CallThrows
  /\ fetchAllIssues throwing_tool (js "acme") (js "widgets") 5
     = (map (request (js "acme") (js "widgets")) (seq 1 2), Thrown).
Proof.
  split; [reflexivity|].
  apply (fetch_throws_when_a_call_throws throwing_tool (js "acme")
           (js "widgets") (fun _ => full_page) 1 5).
  - intros p Hp. assert (p = 1%nat) as -> by lia.
    split; [reflexivity|vm_compute; lia].
  - reflexivity.
  - lia.
Defined.

Lemma fetch_runs_on_while_pages_are_full_witness :
  (100 <= length full_page)%nat
  /\ fetchAllIssues endless_tool (js "acme") (js "widgets") 7
     = (map (request (js "acme") (js "widgets")) (seq 1 7), OutOfFuel).
Proof.
  split; [vm_compute; lia|].
  apply (fetch_runs_on_while_pages_are_full endless_tool (js "acme")
           (js "widgets") (fun _ => full_page) 7).
  intros p _. split; [reflexivity|vm_compute; lia].
Defined.

Lemma issue_line_is_one_line_witness :
  free_of 10 (title issue42)
  /\ free_of 10 (formatIssueForReadme issue42 true).
Proof.
  split; [literal|].
  apply (issue_line_is_one_line issue42 true).
  - literal.
  - literal.
  - refine (bool_decide_unpack _ _). vm_compute. exact I.
  - intros login Hlogin. vm_compute in Hlogin. discriminate.
Defined.

Lemma render_depends_on_its_clock_reads_witness :
  length (closed sample_categories) = 1%nat
  /\ late_clock 3 <> june_1
  /\ run_clock (generateIssuesSection utc_toISOString parse_timestamp
                  utc_zone sample_categories (js "acme") (js "widgets"))
       (fun _ => june_1)
     = run_clock (generateIssuesSection utc_toISOString parse_timestamp
                    utc_zone sample_categories (js "acme") (js "widgets"))
         late_clock.
Proof.
  split; [vm_compute; reflexivity|]. split; [vm_compute; discriminate|].
  apply (render_depends_on_its_clock_reads utc_toISOString parse_timestamp
           utc_zone
           sample_categories (js "acme") (js "widgets") (fun _ => june_1)
           late_clock).
  intros k Hk. change (length (closed sample_categories)) with 1%nat in Hk.
  unfold late_clock. rewrite (proj2 (Nat.ltb_lt k 3)) by lia. reflexivity.
Defined.

Lemma only_pull_requests_render_no_subsection_witness :
  Forall (fun i => pull_request i = true) [pull9]
  /\ categorizeIssues ascii_toLowerCase [pull9] = no_categories.
Proof.
  split; [repeat constructor|].
  apply (only_pull_requests_render_no_subsection utc_toISOString
           parse_timestamp utc_zone ascii_toLowerCase [pull9] (js "acme")
           (js "widgets") (fun _ => june_1)).
  repeat constructor.
Defined.

Lemma rerun_keeps_previous_subsections_witness :
  indexOf sample_readme sectionMarker = None
  /\ updateReadme
       (Some (updateReadme (Some sample_readme) (sample_render june_1)))
       (sample_render august_1)
     = trim (trim sample_readme ++ nl ++ nl
             ++ blocks_after_header utc_toISOString parse_timestamp utc_zone
                  sample_categories (js "acme") (js "widgets")
                  (fun _ => june_1))
       ++ nl ++ nl ++ sample_render august_1.
Proof.
  split; [vm_compute; reflexivity|].
  apply (rerun_keeps_previous_subsections utc_toISOString parse_timestamp
           utc_zone
           sample_readme (sample_render august_1) sample_categories
           (js "acme") (js "widgets") (fun _ => june_1)).
  - vm_compute. reflexivity.
  - literal.
  - literal.
  - literal.
Defined.

Lemma main_rejects_bad_configuration_witness :
  falsy (GITHUB_TOKEN tokenless_environment) = true
  /\ sample_main two_page_tool tokenless_environment
     = Some {| exit_code := 1; events := []; written := None |}.
Proof.
  split; [reflexivity|].
  apply (main_rejects_bad_configuration ascii_toLowerCase utc_toISOString
           parse_timestamp utc_zone two_page_tool true true
           tokenless_environment
           (Some sample_readme) (fun _ => june_1) 5).
  left. reflexivity.
Defined.

Lemma main_event_order_witness :
  sample_main two_page_tool sample_environment
  = Some (the_result (sample_main two_page_tool sample_environment))
  /\ (events (the_result (sample_main two_page_tool sample_environment)) = []
      \/ exists calls closing,
           events (the_result (sample_main two_page_tool sample_environment))
           = Connect :: map ToolCall calls ++ closing
           /\ map arg_page calls = seq 1 (length calls)
           /\ (closing = [] \/ closing = [Disconnect])).
Proof.
  split; [vm_compute; reflexivity|].
  apply (main_event_order ascii_toLowerCase utc_toISOString parse_timestamp
           utc_zone
           two_page_tool true true sample_environment (Some sample_readme)
           (fun _ => june_1) 5).
  vm_compute. reflexivity.
Defined.

Lemma main_without_issues_leaves_readme_witness :
  repoOwner sample_environment = Some (js "acme")
  /\ repoName sample_environment = Some (js "widgets")
  /\ sample_main empty_tool sample_environment
     = Some {| exit_code := 0;
               events := [Connect;
                          ToolCall (request (js "acme") (js "widgets") 1);
                          Disconnect];
               written := None |}.
Proof.
  split; [vm_compute; reflexivity|]. split; [vm_compute; reflexivity|].
  apply (main_without_issues_leaves_readme ascii_toLowerCase utc_toISOString
           parse_timestamp utc_zone empty_tool true true sample_environment
           (js "acme") (js "widgets") (Some sample_readme) (fun _ => june_1) 4).
  - reflexivity.
  - vm_compute. reflexivity.
  - vm_compute. reflexivity.
  - vm_compute. discriminate.
  - vm_compute. discriminate.
  - reflexivity.
  - left. reflexivity.
Defined.

Lemma main_with_only_pull_requests_witness :
  fetchAllIssues pulls_tool (js "acme") (js "widgets") 5
  = ([request (js "acme") (js "widgets") 1], Returned [pull9])
  /\ exit_code (the_result (sample_main pulls_tool sample_environment))
     = 0%nat
  /\ sample_main pulls_tool sample_environment
     = Some {| exit_code := 0;
               events := Connect
                         :: map ToolCall
                              [request (js "acme") (js "widgets") 1]
                         ++ [Disconnect];
               written :=
                 Some (updateReadme (Some sample_readme)
                         (header_block
                            (split_head 84 (utc_toISOString june_1))
                            no_categories (js "acme") (js "widgets")
                          ++ statistics_block no_categories
                               (utc_toISOString june_1))) |}.
Proof.
  split; [vm_compute; reflexivity|]. split; [vm_compute; reflexivity|].
  apply (main_with_only_pull_requests ascii_toLowerCase utc_toISOString
           parse_timestamp utc_zone pulls_tool true true sample_environment
           (js "acme") (js "widgets") (Some sample_readme) (fun _ => june_1)
           5 [request (js "acme") (js "widgets") 1] [pull9]).
  - reflexivity.
  - vm_compute. reflexivity.
  - vm_compute. reflexivity.
  - vm_compute. discriminate.
  - vm_compute. discriminate.
  - reflexivity.
  - reflexivity.
  - vm_compute. reflexivity.
  - discriminate.
  - repeat constructor.
Defined.

Lemma changedFiles_round_trip_witness :
  Forall plain_name [js "src/app.js"; js "docs/read me.md"]
  /\ changedFiles (js "src/app.js" ++ nl ++ js "docs/read me.md" ++ nl)
     = [js "src/app.js"; js "docs/read me.md"].
Proof.
  assert (Forall plain_name [js "src/app.js"; js "docs/read me.md"]) as Hnames.
  { do 2 (apply Forall_cons_2;
            [apply plain_nameb_sound; vm_compute; reflexivity|]).
    apply Forall_nil_2. }
  split; [exact Hnames|].
  exact (changedFiles_round_trip [js "src/app.js"; js "docs/read me.md"]
           Hnames).
Defined.

Lemma complexity_adds_over_separators_witness :
  is_word 10 = false
  /\ (calculateComplexity (js "if (a) {" ++ 10%N :: js "} else {}") + 1
      = calculateComplexity (js "if (a) {")
        + calculateComplexity (js "} else {}"))%nat.
Proof.
  split; [reflexivity|].
  apply (complexity_adds_over_separators 10 (js "if (a) {") (js "} else {}")).
  reflexivity.
Defined.

Lemma complexity_of_a_single_word_witness :
  Forall (fun u => is_word u = true) (js "iffy")
  /\ calculateComplexity (js "iffy")
     = if decide (js "iffy" ∈ complexity_keywords) then 2%nat else 1%nat.
Proof.
  assert (Forall (fun u => is_word u = true) (js "iffy")) as Hword
    by (refine (bool_decide_unpack _ _); vm_compute; exact I).
  split; [exact Hword|].
  exact (complexity_of_a_single_word (js "iffy") Hword).
Defined.
